(** * Adhan-Live: the prayer schedule queries, embedded and verified

    The development follows [src/adhan-live-gui.py] (class
    [PrayerTimesManager] and the progress computation of
    [AdhanLiveWindow.update_display]; [src/BackUp/adhan-live.py] has the
    same manager, line for line) and [src/adhan-live.py] (class
    [AdhanLive], the console variant that keeps its times as strings). *)

From Stdlib Require Import ZArith QArith Qabs String Ascii List Lia.
From stdpp Require Import gmap strings list fin_maps.
Import ListNotations.

Local Open Scope string_scope.
Local Open Scope Z_scope.

(** ** Python values *)

(** The exceptions the modelled code can raise. *)
Inductive exn : Type :=
| IndexError
| ValueError.

(** A [datetime] is the count of microseconds of its wall-clock fields
    since 0001-01-01T00:00.  Every datetime the manager handles is built
    with the manager's own [tzinfo] ([datetime.now(self.timezone)], or the
    naive [datetime.now()] when there is none), and for such operands
    Python compares and subtracts the wall-clock fields and ignores the
    zone.  The year range 1..9999 of [datetime] is not modelled.  A
    [timedelta] is a signed count of microseconds. *)
Abbreviation datetime := Z (only parsing).
Abbreviation timedelta := Z (only parsing).

Definition US_PER_SECOND : Z := 1000000.
Definition US_PER_MINUTE : Z := 60 * US_PER_SECOND.
Definition US_PER_HOUR : Z := 3600 * US_PER_SECOND.
Definition US_PER_DAY : Z := 86400 * US_PER_SECOND.

(** [timedelta(days=n)] *)
Definition timedelta_days (n : Z) : timedelta := n * US_PER_DAY.

(** The normalised fields of a timedelta: [days] may be negative,
    [0 <= seconds < 86400] and [0 <= microseconds < 1000000]. *)
Definition td_days (d : timedelta) : Z := d / US_PER_DAY.
Definition td_seconds (d : timedelta) : Z := (d mod US_PER_DAY) / US_PER_SECOND.
Definition td_microseconds (d : timedelta) : Z := d mod US_PER_SECOND.

(** [timedelta.total_seconds()], the exact quotient; the rounding to a
    float is not modelled (it cannot move the value across 0 or 60, the
    only numbers it is compared with, since both are multiples of a
    microsecond). *)
Definition total_seconds (d : timedelta) : Q := d # 1000000.

(** The fields of a datetime used by the code. *)
Definition dt_date (t : datetime) : Z := t / US_PER_DAY.
Definition dt_hour (t : datetime) : Z := (t mod US_PER_DAY) / US_PER_HOUR.
Definition dt_minute (t : datetime) : Z := (t mod US_PER_HOUR) / US_PER_MINUTE.
Definition dt_second (t : datetime) : Z := (t mod US_PER_MINUTE) / US_PER_SECOND.
Definition dt_microsecond (t : datetime) : Z := t mod US_PER_SECOND.

Definition mk_datetime (date hour minute second microsecond : Z) : datetime :=
  date * US_PER_DAY + hour * US_PER_HOUR + minute * US_PER_MINUTE
  + second * US_PER_SECOND + microsecond.

(** [t.replace(hour=h, minute=m, second=0, microsecond=0)]; raises
    [ValueError] when a field is out of range. *)
Definition replace_hm (t : datetime) (h m : Z) : exn + datetime :=
  if (0 <=? h) && (h <=? 23) && (0 <=? m) && (m <=? 59)
  then inr (mk_datetime (dt_date t) h m 0 0)
  else inl ValueError.

(** [t.replace(hour=0, minute=0, second=0)]: the microsecond field is not
    named, so it keeps the value it has in [t]. *)
Definition replace_hms0 (t : datetime) : datetime :=
  mk_datetime (dt_date t) 0 0 0 (dt_microsecond t).

(** *** Strings

    A [str] is modelled by a [string] of code points below 256. *)

(** [str.isspace] on one character of that range. *)
Definition isspace (c : ascii) : bool :=
  let n := Z.of_nat (nat_of_ascii c) in
  ((9 <=? n) && (n <=? 13)) || ((28 <=? n) && (n <=? 32))
  || (n =? 133) || (n =? 160).

Definition str_is_empty (s : string) : bool :=
  match s with EmptyString => true | String _ _ => false end.

(** [s.split()]: the maximal runs of non-whitespace characters. *)
Fixpoint split_ws_from (cur : string) (s : string) : list string :=
  match s with
  | EmptyString => if str_is_empty cur then [] else [cur]
  | String c s' =>
      if isspace c
      then (if str_is_empty cur then split_ws_from "" s'
            else cur :: split_ws_from "" s')
      else split_ws_from (cur +:+ String c "") s'
  end.
Definition split_ws (s : string) : list string := split_ws_from "" s.

(** [s.split(sep)] for a one-character separator: empty pieces are kept. *)
Fixpoint split_on_from (sep : ascii) (cur : string) (s : string) : list string :=
  match s with
  | EmptyString => [cur]
  | String c s' =>
      if Ascii.eqb c sep then cur :: split_on_from sep "" s'
      else split_on_from sep (cur +:+ String c "") s'
  end.
Definition split_on (sep : ascii) (s : string) : list string :=
  split_on_from sep "" s.

Fixpoint lstrip (s : string) : string :=
  match s with
  | EmptyString => ""
  | String c s' => if isspace c then lstrip s' else s
  end.
Fixpoint rstrip (s : string) : string :=
  match s with
  | EmptyString => ""
  | String c s' =>
      let r := rstrip s' in
      if isspace c && str_is_empty r then "" else String c r
  end.
Definition strip (s : string) : string := lstrip (rstrip s).

Definition digit_of (c : ascii) : option Z :=
  let n := Z.of_nat (nat_of_ascii c) in
  if (48 <=? n) && (n <=? 57) then Some (n - 48) else None.

(** The digit part of a decimal literal accepted by [int]: digits, with
    single underscores allowed between two digits. *)
Fixpoint int_digits (after_digit : bool) (acc : Z) (s : string) : option Z :=
  match s with
  | EmptyString => if after_digit then Some acc else None
  | String c s' =>
      match digit_of c with
      | Some d => int_digits true (10 * acc + d) s'
      | None =>
          if Ascii.eqb c "_" && after_digit then int_digits false acc s'
          else None
      end
  end.

(** [int(s)] for a string: surrounding whitespace is dropped, one sign is
    allowed, anything else raises [ValueError].  (The interpreter's limit
    on the number of digits, 4300 by default, is not modelled.) *)
Definition py_int (s : string) : exn + Z :=
  let body := strip s in
  let r :=
    match body with
    | String "+" rest => int_digits false 0 rest
    | String "-" rest => Z.opp <$> int_digits false 0 rest
    | _ => int_digits false 0 body
    end in
  match r with Some n => inr n | None => inl ValueError end.

(** [hour, minute = map(int, time_str.split(':'))]: any failure, of a
    conversion or of the unpacking, is a [ValueError]. *)
Definition parse_hour_minute (time_str : string) : exn + (Z * Z) :=
  match split_on ":" time_str with
  | [a; b] =>
      match py_int a, py_int b with
      | inr h, inr m => inr (h, m)
      | _, _ => inl ValueError
      end
  | _ => inl ValueError
  end.

(** [strftime('%H:%M')] *)
Definition digit_char (d : Z) : ascii := ascii_of_nat (Z.to_nat (48 + d)).
Definition fmt2 (n : Z) : string :=
  String (digit_char (n / 10 mod 10)) (String (digit_char (n mod 10)) "").
Definition fmt_hm (h m : Z) : string := fmt2 h +:+ ":" +:+ fmt2 m.
Definition strftime_HM (t : datetime) : string := fmt_hm (dt_hour t) (dt_minute t).

(** [a > b] on strings: lexicographic on code points. *)
Definition str_gt (a b : string) : bool :=
  match String.compare a b with Gt => true | _ => false end.

(** The fixed prayer order of both front ends. *)
Definition PRAYERS : list string := ["Fajr"; "Dhuhr"; "Asr"; "Maghrib"; "Isha"].

(** Comparisons of exact rationals, as booleans. *)
Definition Qltb (a b : Q) : bool := negb (Qle_bool b a).

(** [max(a, b)] and [min(a, b)] of two numbers: the first argument is
    kept unless the second is strictly larger (smaller). *)
Definition py_max (a b : Q) : Q := if Qltb a b then b else a.
Definition py_min (a b : Q) : Q := if Qltb b a then b else a.

(** ** class PrayerTimesManager *)

(** The fields of the manager that the schedule consists of.
    [timezone] is the key of the [ZoneInfo] object, [None] for the unzoned
    local clock; [location_data] is the answer of the location service,
    kept opaque. *)
Record PrayerTimesManager : Type := mkManager {
  prayer_times : gmap string datetime;
  hijri_date : string;
  location_data : option string;
  timezone : option string;
}.

Definition set_prayer_times (f : gmap string datetime → gmap string datetime)
    (self : PrayerTimesManager) : PrayerTimesManager :=
  mkManager (f (prayer_times self)) (hijri_date self) (location_data self) (timezone self).
Definition set_hijri_date (v : string) (self : PrayerTimesManager) : PrayerTimesManager :=
  mkManager (prayer_times self) v (location_data self) (timezone self).
Definition set_location_data (v : option string) (self : PrayerTimesManager) : PrayerTimesManager :=
  mkManager (prayer_times self) (hijri_date self) v (timezone self).
Definition set_timezone (v : option string) (self : PrayerTimesManager) : PrayerTimesManager :=
  mkManager (prayer_times self) (hijri_date self) (location_data self) v.

(** A method of the manager: it runs on [self], may assign to its fields
    and either returns or raises. *)
Definition M (A : Type) : Type :=
  PrayerTimesManager → (exn + A) * PrayerTimesManager.

#[global] Instance M_ret : MRet M := λ A a self, (inr a, self).
#[global] Instance M_bind : MBind M := λ A B k m self,
  match m self with
  | (inr a, self') => k a self'
  | (inl e, self') => (inl e, self')
  end.
Definition raise {A : Type} (e : exn) : M A := λ self, (inl e, self).
Definition reads {A : Type} (f : PrayerTimesManager → A) : M A :=
  λ self, (inr (f self), self).
Definition modify (f : PrayerTimesManager → PrayerTimesManager) : M unit :=
  λ self, (inr tt, f self).

(** What the collaborators hand to [update]. *)
Record ApiData : Type := mkApiData {
  timings : gmap string string;   (* data.get('timings', {}) *)
  hijri_day : string;             (* hijri.get('day', '') *)
  hijri_month_en : string;        (* hijri.get('month', {}).get('en', '') *)
  hijri_year : string;            (* hijri.get('year', '') *)
}.

Record Env : Type := mkEnv {
  fetch_prayer_times : option ApiData;   (* None: a falsy answer of the API *)
  config_timezone : option string;       (* config.get('timezone'), None when falsy *)
  zone_exists : string → bool;           (* does ZoneInfo(name) return? *)
  clock : option string → datetime;      (* datetime.now(tz) *)
  get_location : option string;
}.

Module Manager.

(** The body of the loop of [update] for one prayer.  The subscript [0]
    of the split is outside the [try], so its [IndexError] leaves the
    method; a [ValueError] of the conversion or of [replace] is caught
    and passed over. *)
Definition store_time (date_obj : datetime) (timings : gmap string string)
    (prayer : string) : M unit :=
  match timings !! prayer with
  | Some raw =>
      match split_ws raw with
      | [] => raise IndexError
      | time_str :: _ =>
          match parse_hour_minute time_str with
          | inr (hour, minute) =>
              match replace_hm date_obj hour minute with
              | inr prayer_time => modify (set_prayer_times <[prayer := prayer_time]>)
              | inl _ => mret tt
              end
          | inl _ => mret tt
          end
      end
  | None => mret tt
  end.

Fixpoint store_times (date_obj : datetime) (timings : gmap string string)
    (prayers : list string) : M unit :=
  match prayers with
  | [] => mret tt
  | prayer :: rest =>
      store_time date_obj timings prayer ;; store_times date_obj timings rest
  end.

Definition update (env : Env) : M bool :=
  match fetch_prayer_times env with
  | None => mret false
  | Some data =>
      match config_timezone env with
      | Some tz_name =>
          modify (set_timezone (if zone_exists env tz_name then Some tz_name else None))
      | None => mret tt
      end ;;
      tz ← reads timezone ;
      let date_obj := clock env tz in
      modify (set_prayer_times (λ _, ∅)) ;;
      store_times date_obj (timings data) PRAYERS ;;
      modify (set_hijri_date
                (hijri_day data +:+ " " +:+ hijri_month_en data +:+ " " +:+ hijri_year data)) ;;
      modify (set_location_data (get_location env)) ;;
      mret true
  end.

(** The loop of [get_next_prayer]: the first prayer of the list that is in
    the map with a time after [now]. *)
Fixpoint first_after (times : gmap string datetime) (now : datetime)
    (prayers : list string) : option (string * datetime) :=
  match prayers with
  | [] => None
  | prayer :: rest =>
      match times !! prayer with
      | Some prayer_time =>
          if now <? prayer_time then Some (prayer, prayer_time)
          else first_after times now rest
      | None => first_after times now rest
      end
  end.

(** [now] is the reading of the clock the method starts with. *)
Definition get_next_prayer (now : datetime) : M (option (string * datetime)) :=
  times ← reads prayer_times ;
  match first_after times now PRAYERS with
  | Some found => mret (Some found)
  | None =>
      match times !! "Fajr" with
      | Some fajr => mret (Some ("Fajr", fajr + timedelta_days 1))
      | None => mret None
      end
  end.

Definition get_time_remaining (now target_time : datetime) : M (Z * Z * Z) :=
  let diff := target_time - now in
  if Qltb (total_seconds diff) 0 then mret (0, 0, 0)
  else
    let hours := td_seconds diff / 3600 in
    let minutes := (td_seconds diff mod 3600) / 60 in
    let seconds := td_seconds diff mod 60 in
    mret (hours, minutes, seconds).

Definition is_prayer_time (now : datetime) (prayer : string) : M bool :=
  times ← reads prayer_times ;
  match times !! prayer with
  | None => mret false
  | Some prayer_time =>
      mret (Qltb (Qabs (total_seconds (now - prayer_time))) 60)
  end.

End Manager.

(** ** AdhanLiveWindow.update_display: the progress bar *)
Module Display.

(** The loop over the prayers in reverse order, with its [break]. *)
Fixpoint last_before (times : gmap string datetime) (now : datetime)
    (prayers : list string) : option datetime :=
  match prayers with
  | [] => None
  | p :: rest =>
      match times !! p with
      | Some t => if t <? now then Some t else last_before times now rest
      | None => last_before times now rest
      end
  end.

Definition prev_prayer_time (times : gmap string datetime) (now : datetime) : datetime :=
  match last_before times now ["Isha"; "Maghrib"; "Asr"; "Dhuhr"; "Fajr"] with
  | Some t => t
  | None => replace_hms0 now
  end.

(** The fraction given to the progress bar, for the clock reading [now]
    of [update_display] and the [prayer_time] it got from
    [get_next_prayer]. *)
Definition progress (now prayer_time : datetime) : M Q :=
  times ← reads prayer_times ;
  let prev := prev_prayer_time times now in
  let total_duration := total_seconds (prayer_time - prev) in
  let elapsed := total_seconds (now - prev) in
  mret (if Qltb 0 total_duration
        then py_min 1 (py_max 0 (elapsed / total_duration))
        else 0)%Q.

(** The part of [update_display] that feeds the progress bar; [now] is the
    clock reading at its start and [now'] the one [get_next_prayer] takes.
    [None]: the bar is left as it is. *)
Definition update_progress (now now' : datetime) : M (option Q) :=
  next_prayer_data ← Manager.get_next_prayer now' ;
  match next_prayer_data with
  | Some (_, prayer_time) =>
      fraction ← progress now prayer_time ; mret (Some fraction)
  | None => mret None
  end.

End Display.

(** ** class AdhanLive, the console variant *)
Module Console.

(** [prayer_times] holds the strings of the timings service as they came;
    [enabled_prayers] is [config['enabled_prayers']]. *)
Record AdhanLive : Type := mkAdhanLive {
  enabled_prayers : list string;
  prayer_times : gmap string string;
}.

Definition prayer_names_ar : gmap string string :=
  list_to_map
    [("Fajr", "الفجر"); ("Dhuhr", "الظهر"); ("Asr", "العصر");
     ("Maghrib", "المغرب"); ("Isha", "العشاء")].

(** What [get_next_prayer] returns: the pair [(None, None)], or a triple
    of the prayer, its Arabic name and its time string. *)
Inductive next_prayer : Type :=
| NoTimes
| Next (prayer prayer_ar prayer_time : string).

Definition next_name (r : next_prayer) : option string :=
  match r with NoTimes => None | Next prayer _ _ => Some prayer end.

(** The loop: string comparison with the current ["HH:MM"]. *)
Fixpoint first_after (times : gmap string string) (current_time : string)
    (prayers : list string) : option (string * string) :=
  match prayers with
  | [] => None
  | prayer :: rest =>
      match times !! prayer with
      | Some prayer_time =>
          if str_gt prayer_time current_time then Some (prayer, prayer_time)
          else first_after times current_time rest
      | None => first_after times current_time rest
      end
  end.

Definition get_next_prayer (self : AdhanLive) (now : datetime) : exn + next_prayer :=
  if bool_decide (prayer_times self = ∅) then inr NoTimes
  else
    let current_time := strftime_HM now in
    match first_after (prayer_times self) current_time (enabled_prayers self) with
    | Some (prayer, prayer_time) =>
        inr (Next prayer (default prayer (prayer_names_ar !! prayer)) prayer_time)
    | None =>
        match enabled_prayers self with
        | [] => inl IndexError
        | first_prayer :: _ =>
            inr (Next first_prayer
                   (default first_prayer (prayer_names_ar !! first_prayer))
                   (default "" (prayer_times self !! first_prayer)))
        end
    end.

End Console.

(** ** Reference definitions for the statements *)

(** The decomposition of a non-negative duration into whole hours, whole
    minutes within the hour and whole seconds within the minute; the
    part below a second is dropped. *)
Definition hms_of_duration (d : timedelta) : Z * Z * Z :=
  let s := d / US_PER_SECOND in
  (s / 3600, (s mod 3600) / 60, s mod 60).

(** A query of the manager: it returns, leaves [self] as it was, and a
    second call right after the first returns the same value. *)
Definition pure_query {A : Type} (q : M A) : Prop :=
  ∀ self, ∃ r,
    q self = (inr r, self) ∧
    (r1 ← q ; r2 ← q ; mret (r1, r2)) self = (inr (r, r), self).

(** The value in [0, 1] nearest to [x]. *)
Definition clamp01 (x : Q) : Q :=
  if Qltb x 0 then 0%Q else if Qltb 1 x then 1%Q else x.

(** What the loop of [update] stores for a prayer when nothing is
    raised: the time parsed from the first word of its string, if the
    string is there and the word parses. *)
Definition parse_time (date_obj : datetime) (time_str : string) : option datetime :=
  match parse_hour_minute time_str with
  | inr (hour, minute) =>
      match replace_hm date_obj hour minute with
      | inr prayer_time => Some prayer_time
      | inl _ => None
      end
  | inl _ => None
  end.
Definition stored_time (date_obj : datetime) (timings : gmap string string)
    (prayer : string) : option datetime :=
  raw ← timings !! prayer ; time_str ← head (split_ws raw) ; parse_time date_obj time_str.

(** Local midnight of the day of [t]. *)
Definition midnight (t : datetime) : datetime := mk_datetime (dt_date t) 0 0 0 0.

(** The schedule of 2024-06-01 (day 739037 after 0001-01-01) used in the
    examples: Fajr 05:12, Dhuhr 12:30, Asr 15:45, Maghrib 18:20, Isha 19:50. *)
Definition day0 : Z := 739037.
Definition at0 (h m s us : Z) : datetime := mk_datetime day0 h m s us.
Definition times0 : gmap string datetime :=
  list_to_map [("Fajr", at0 5 12 0 0); ("Dhuhr", at0 12 30 0 0); ("Asr", at0 15 45 0 0);
               ("Maghrib", at0 18 20 0 0); ("Isha", at0 19 50 0 0)].
Definition manager0 : PrayerTimesManager :=
  mkManager times0 "24 Dhu al-Qadah 1445" None (Some "Africa/Cairo").

(** Checks by enumeration, for the two-digit fields of ["HH:MM"]. *)
Definition Zrange (n : nat) : list Z := List.map Z.of_nat (seq 0 n).
Definition cmp_digits (a b : Z) : comparison :=
  match Ascii.compare (digit_char (a / 10 mod 10)) (digit_char (b / 10 mod 10)) with
  | Eq => Ascii.compare (digit_char (a mod 10)) (digit_char (b mod 10))
  | c => c
  end.
Definition check_cmp (a b : Z) : bool :=
  match cmp_digits a b, a ?= b with
  | Eq, Eq | Lt, Lt | Gt, Gt => true
  | _, _ => false
  end.
Definition check_parse (h m : Z) : bool :=
  match parse_hour_minute (fmt_hm h m) with
  | inr (h', m') => (h' =? h) && (m' =? m)
  | inl _ => false
  end
  && match split_ws (fmt_hm h m) with
     | [w] => String.eqb w (fmt_hm h m)
     | _ => false
     end.

(** A well-formed zero-padded ["HH:MM"]. *)
Definition well_formed_hm (s : string) : Prop :=
  ∃ h m, 0 ≤ h < 24 ∧ 0 ≤ m < 60 ∧ s = fmt_hm h m.

(** The strings of the example schedule, as the console variant keeps them. *)
Definition timings0 : gmap string string :=
  list_to_map [("Fajr", "05:12"); ("Dhuhr", "12:30"); ("Asr", "15:45");
               ("Maghrib", "18:20"); ("Isha", "19:50")].

(** An answer of the timings service in which the string of Asr is
    empty, and one in which it is not a time. *)
Definition timings_blank_asr : gmap string string :=
  list_to_map [("Fajr", "05:12"); ("Dhuhr", "12:30"); ("Asr", "");
               ("Maghrib", "18:20"); ("Isha", "19:50")].
Definition timings_bad_asr : gmap string string :=
  list_to_map [("Fajr", "05:12 (EEST)"); ("Dhuhr", "12:30"); ("Asr", "15h45");
               ("Maghrib", "18:20"); ("Isha", "19:50")].
Definition env_with (t : gmap string string) : Env :=
  mkEnv (Some (mkApiData t "24" "Dhu al-Qadah" "1445")) (Some "Africa/Cairo")
        (λ _, true) (λ _, at0 0 5 0 123456) None.

(** The time zone the manager has after [update] has read the
    configuration. *)
Definition refreshed_timezone (env : Env) (self : PrayerTimesManager) : option string :=
  match config_timezone env with
  | Some tz_name => if zone_exists env tz_name then Some tz_name else None
  | None => timezone self
  end.

(** The label [update] builds from the Hijri fields. *)
Definition hijri_label (data : ApiData) : string :=
  hijri_day data +:+ " " +:+ hijri_month_en data +:+ " " +:+ hijri_year data.

(** A string without whitespace. *)
Fixpoint no_space (s : string) : bool :=
  match s with
  | EmptyString => true
  | String c s' => negb (isspace c) && no_space s'
  end.

(** ** AdhanLiveWindow: the prayer list and the prayer-time check *)
Module Window.

(** What a row of the prayer list shows after the name: the time as
    ["%H:%M"], and either "Completed" or the hours and minutes left.
    [row_completed] is the style class "prayer-box-completed". *)
Inductive row_status : Type :=
| Completed
| Remaining (hours minutes : Z).

Record prayer_row : Type := mkRow {
  row_prayer : string;
  row_completed : bool;
  row_time : string;
  row_status_shown : row_status;
}.

(** The loop of [update_prayer_list]; [now] is the clock reading of the
    method and [now_at prayer] the one [get_time_remaining] takes when it
    is called for the row of [prayer]. *)
Fixpoint prayer_rows (now : datetime) (now_at : string → datetime)
    (prayers : list string) : M (list prayer_row) :=
  match prayers with
  | [] => mret []
  | prayer :: rest =>
      times ← reads prayer_times ;
      match times !! prayer with
      | None => prayer_rows now now_at rest
      | Some prayer_time =>
          status ← (if prayer_time <? now then mret Completed
                    else hms ← Manager.get_time_remaining (now_at prayer) prayer_time ;
                         mret (Remaining hms.1.1 hms.1.2)) ;
          rows ← prayer_rows now now_at rest ;
          mret (mkRow prayer (prayer_time <? now) (strftime_HM prayer_time) status :: rows)
      end
  end.

Definition update_prayer_list (now : datetime) (now_at : string → datetime) :
    M (list prayer_row) :=
  prayer_rows now now_at PRAYERS.

(** The loop of [check_prayer_time], up to its [break]: the prayer for
    which the adhan is played and the notification sent, if any.
    [now_at prayer] is the clock reading [is_prayer_time] takes for
    [prayer]; [last_played_prayer] is the field of the window. *)
Fixpoint first_due (now_at : string → datetime) (last_played_prayer : option string)
    (prayers : list string) : M (option string) :=
  match prayers with
  | [] => mret None
  | prayer :: rest =>
      due ← Manager.is_prayer_time (now_at prayer) prayer ;
      if due && negb (bool_decide (Some prayer = last_played_prayer))
      then mret (Some prayer)
      else first_due now_at last_played_prayer rest
  end.

(** [check_prayer_time]: the prayer announced, if any, and the new value
    of [last_played_prayer]. *)
Definition check_prayer_time (now_at : string → datetime)
    (last_played_prayer : option string) : M (option string * option string) :=
  times ← reads prayer_times ;
  if bool_decide (times = ∅) then mret (None, last_played_prayer)
  else
    played ← first_due now_at last_played_prayer PRAYERS ;
    match played with
    | Some prayer => mret (Some prayer, Some prayer)
    | None => mret (None, last_played_prayer)
    end.

End Window.

(** The stored times of the prayers of a list do not decrease along the
    list, and none is below [lo]. *)
Fixpoint nondecreasing_from (times : gmap string Z) (lo : option Z)
    (prayers : list string) : bool :=
  match prayers with
  | [] => true
  | p :: rest =>
      match times !! p with
      | Some t =>
          match lo with Some l => l <=? t | None => true end
          && nondecreasing_from times (Some t) rest
      | None => nondecreasing_from times lo rest
      end
  end.

(** ** class AdhanLive: the countdown of the console variant *)
Module AdhanLive.

(** [datetime.strptime(s, '%H:%M')] matches [s] against the regular
    expression [(?P<H>2[0-3]|[0-1]\d|\d):(?P<M>[0-5]\d|\d)].  The hour
    group takes two digits when they read at most 23 and else one; the
    minute group takes two digits when the first is at most 5 and else
    one.  The functions give the value of the group and what follows
    it. *)
Definition match_H (s : string) : option (Z * string) :=
  match s with
  | EmptyString => None
  | String a rest =>
      match digit_of a with
      | None => None
      | Some x =>
          match rest with
          | String b rest' =>
              match digit_of b with
              | Some y => if 10 * x + y <=? 23 then Some (10 * x + y, rest')
                          else Some (x, rest)
              | None => Some (x, rest)
              end
          | EmptyString => Some (x, rest)
          end
      end
  end.

Definition match_M (s : string) : option (Z * string) :=
  match s with
  | EmptyString => None
  | String a rest =>
      match digit_of a with
      | None => None
      | Some x =>
          match rest with
          | String b rest' =>
              match digit_of b with
              | Some y => if x <=? 5 then Some (10 * x + y, rest')
                          else Some (x, rest)
              | None => Some (x, rest)
              end
          | EmptyString => Some (x, rest)
          end
      end
  end.

(** The hour and minute of [strptime(s, '%H:%M')]; [ValueError] when the
    expression does not match or when something of [s] is left over. *)
Definition strptime_HM (s : string) : exn + (Z * Z) :=
  match match_H s with
  | Some (h, String ":" rest) =>
      match match_M rest with
      | Some (m, EmptyString) => inr (h, m)
      | _ => inl ValueError
      end
  | _ => inl ValueError
  end.

(** [get_time_until_prayer]; any exception inside gives (0, 0, 0). *)
Definition get_time_until_prayer (now : datetime) (prayer_time : string) : Z * Z * Z :=
  match strptime_HM prayer_time with
  | inr (h, m) =>
      let prayer_dt := mk_datetime (dt_date now) h m 0 0 in
      let prayer_dt := if prayer_dt <? now then prayer_dt + timedelta_days 1 else prayer_dt in
      let diff := prayer_dt - now in
      let hours := td_seconds diff / 3600 in
      let minutes := (td_seconds diff mod 3600) / 60 in
      let seconds := td_seconds diff mod 60 in
      (hours, minutes, seconds)
  | inl _ => (0, 0, 0)
  end.

End AdhanLive.

(** ** class PrayerTimesAPI: the two web services and their retries *)
Module Api.

(** What one pass through the [try] block of a request does: an exception
    (connection, HTTP status, JSON, a missing key) is caught by the
    [except]; the block runs to its end without returning when the
    status or code of the answer is not the expected one; or the method
    returns. *)
Inductive reply (A : Type) : Type :=
| Raised
| Refused
| Answered (a : A).
Arguments Raised {A}.
Arguments Refused {A}.
Arguments Answered {A} a.

(** The dict [get_location] builds from a successful answer. *)
Record Location : Type := mkLocation {
  loc_city : string;
  loc_country : string;
  loc_lat : option Q;
  loc_lon : option Q;
  loc_timezone : option string;
}.

(** The entries of the configuration the client reads and writes. *)
Record Config : Type := mkConfig {
  auto_detect_location : bool;
  latitude : option Q;
  longitude : option Q;
  cfg_timezone : option string;
  city : option string;
  country : option string;
  retry_attempts : Z;
  retry_delay : Z;
}.

Inductive event : Type :=
| LocationRequest
| TimingsRequest
| Sleep (seconds : Z).

(** The world of the client: its configuration (written to disk at each
    [set]; the disk is taken to accept the writes), what the two services
    will do at the coming requests, and what has happened, latest
    first. *)
Record World : Type := mkWorld {
  config : Config;
  location_replies : nat → reply Location;
  timings_replies : nat → reply ApiData;
  events : list event;
}.

Definition IO (A : Type) : Type := World → (exn + A) * World.

#[global] Instance IO_ret : MRet IO := λ A a w, (inr a, w).
#[global] Instance IO_bind : MBind IO := λ A B k m w,
  match m w with
  | (inr a, w') => k a w'
  | (inl e, w') => (inl e, w')
  end.

Definition get_config {A : Type} (f : Config → A) : IO A := λ w, (inr (f (config w)), w).
Definition set_config (f : Config → Config) : IO unit :=
  λ w, (inr tt, mkWorld (f (config w)) (location_replies w) (timings_replies w) (events w)).

Definition request_location : IO (reply Location) :=
  λ w, (inr (location_replies w O),
        mkWorld (config w) (λ n, location_replies w (S n)) (timings_replies w)
                (LocationRequest :: events w)).
Definition request_timings : IO (reply ApiData) :=
  λ w, (inr (timings_replies w O),
        mkWorld (config w) (location_replies w) (λ n, timings_replies w (S n))
                (TimingsRequest :: events w)).

(** [time.sleep(d)]: a negative [d] raises [ValueError]. *)
Definition sleep (d : Z) : IO unit :=
  λ w, if d <? 0 then (inl ValueError, w)
       else (inr tt, mkWorld (config w) (location_replies w) (timings_replies w)
                             (Sleep d :: events w)).

Definition set_city_country (location : Location) (c : Config) : Config :=
  mkConfig (auto_detect_location c) (latitude c) (longitude c) (cfg_timezone c)
           (Some (loc_city location)) (Some (loc_country location))
           (retry_attempts c) (retry_delay c).
Definition set_coordinates (location : Location) (c : Config) : Config :=
  mkConfig (auto_detect_location c) (loc_lat location) (loc_lon location)
           (loc_timezone location) (city c) (country c)
           (retry_attempts c) (retry_delay c).

(** [not x] for a coordinate: [None] and zero are false values. *)
Definition falsy (x : option Q) : bool :=
  match x with None => true | Some q => Qeq_bool q 0 end.

(** The loop of [get_location] over [range(retry_attempts)]. *)
Fixpoint get_location_loop (retry_attempts retry_delay : Z) (attempts : list Z) :
    IO (option Location) :=
  match attempts with
  | [] => mret None
  | attempt :: rest =>
      r ← request_location ;
      match r with
      | Answered location =>
          set_config (set_city_country location) ;; mret (Some location)
      | Refused => get_location_loop retry_attempts retry_delay rest
      | Raised =>
          (if attempt <? retry_attempts - 1 then sleep retry_delay else mret tt) ;;
          get_location_loop retry_attempts retry_delay rest
      end
  end.

Definition get_location : IO (option Location) :=
  retry_attempts ← get_config retry_attempts ;
  retry_delay ← get_config retry_delay ;
  get_location_loop retry_attempts retry_delay (seqZ 0 retry_attempts).

(** The loop of [fetch_prayer_times] over [range(retry_attempts)]. *)
Fixpoint fetch_loop (retry_attempts retry_delay : Z) (attempts : list Z) :
    IO (option ApiData) :=
  match attempts with
  | [] => mret None
  | attempt :: rest =>
      r ← request_timings ;
      match r with
      | Answered data => mret (Some data)
      | Refused => fetch_loop retry_attempts retry_delay rest
      | Raised =>
          (if attempt <? retry_attempts - 1 then sleep retry_delay else mret tt) ;;
          fetch_loop retry_attempts retry_delay rest
      end
  end.

(** The first part of [fetch_prayer_times]: the location, when it is to
    be detected, and the coordinates and time zone written from it. *)
Definition detect_phase : IO unit :=
  get_config auto_detect_location ≫= λ detect : bool,
  if detect
  then (location ← get_location ;
        match location with
        | Some location => set_config (set_coordinates location)
        | None => mret tt
        end)
  else mret tt.

Definition fetch_prayer_times : IO (option ApiData) :=
  get_config auto_detect_location ≫= λ detect : bool,
  (if detect
   then (location ← get_location ;
         match location with
         | Some location => set_config (set_coordinates location)
         | None => mret tt
         end)
   else mret tt) ;;
  get_config latitude ≫= λ lat : option Q,
  get_config longitude ≫= λ lon : option Q,
  if falsy lat || falsy lon then mret None
  else
    retry_attempts ← get_config retry_attempts ;
    retry_delay ← get_config retry_delay ;
    fetch_loop retry_attempts retry_delay (seqZ 0 retry_attempts).

(** The requests made to the timings service and the sleeps in a list of
    events. *)
Definition is_timings_request (e : event) : bool :=
  match e with TimingsRequest => true | _ => false end.
Definition is_location_request (e : event) : bool :=
  match e with LocationRequest => true | _ => false end.
Definition is_sleep (e : event) : bool :=
  match e with Sleep _ => true | _ => false end.
Definition timings_requests (l : list event) : nat :=
  length (List.filter is_timings_request l).
Definition location_requests (l : list event) : nat :=
  length (List.filter is_location_request l).
Definition sleeps (l : list event) : nat := length (List.filter is_sleep l).

End Api.

(** A configuration with fixed coordinates and a world in which the
    timings service fails once, refuses once and then answers. *)
Definition config0 : Api.Config :=
  Api.mkConfig false (Some (30 # 1)) (Some (31 # 1)) (Some "Africa/Cairo")
               None None 3 2.
Definition data0 : ApiData := mkApiData timings0 "24" "Dhu al-Qadah" "1445".
Definition world0 : Api.World :=
  Api.mkWorld config0 (λ _, Api.Raised)
    (λ n, match n with O => Api.Raised | S O => Api.Refused | _ => Api.Answered data0 end)
    [].
Definition location0 : Api.Location :=
  Api.mkLocation "Null Island" "Nowhere" (Some 0%Q) (Some 0%Q) (Some "Etc/UTC").

(** * Properties *)

(** ** Rationals against integers *)

Lemma Qltb_total_seconds_0 (d : Z) : Qltb (total_seconds d) 0 = (d <? 0).
Proof.
  unfold Qltb, total_seconds.
  destruct (Z.ltb_spec d 0) as [H|H].
  - apply negb_true_iff. destruct (Qle_bool 0 (d # 1000000)) eqn:E; [|done].
    apply Qle_bool_iff in E. unfold Qle in E. simpl in E. lia.
  - apply negb_false_iff, Qle_bool_iff. unfold Qle. simpl. lia.
Qed.

Lemma Qltb_0_total_seconds (d : Z) : Qltb 0 (total_seconds d) = (0 <? d).
Proof.
  unfold Qltb, total_seconds.
  destruct (Z.ltb_spec 0 d) as [H|H].
  - apply negb_true_iff. destruct (Qle_bool (d # 1000000) 0) eqn:E; [|done].
    apply Qle_bool_iff in E. unfold Qle in E. simpl in E. lia.
  - apply negb_false_iff, Qle_bool_iff. unfold Qle. simpl. lia.
Qed.

Lemma Qltb_abs_total_seconds_60 (d : Z) :
  Qltb (Qabs (total_seconds d)) 60 = (Z.abs d <? 60 * US_PER_SECOND).
Proof.
  unfold Qltb, total_seconds, US_PER_SECOND. cbn [Qabs].
  destruct (Z.ltb_spec (Z.abs d) (60 * 1000000)) as [H|H].
  - apply negb_true_iff. destruct (Qle_bool 60 (Z.abs d # 1000000)) eqn:E; [|done].
    apply Qle_bool_iff in E. unfold Qle in E. simpl in E. lia.
  - apply negb_false_iff, Qle_bool_iff. unfold Qle. simpl. lia.
Qed.

(** ** The scan of get_next_prayer *)

Section FirstAfter.
Variable times : gmap string Z.
Variable now : Z.

Lemma first_after_found (pre post : list string) (p : string) (t : Z) :
  times !! p = Some t → now < t →
  (∀ q u, q ∈ pre → times !! q = Some u → u ≤ now) →
  Manager.first_after times now (pre ++ p :: post) = Some (p, t).
Proof.
  intros Hp Ht. induction pre as [|q pre IH]; intros Hpre; simpl.
  - rewrite Hp. destruct (Z.ltb_spec now t); [done | lia].
  - destruct (times !! q) as [u|] eqn:Hq.
    + assert (u ≤ now) by (eapply Hpre; [left | done]).
      destruct (Z.ltb_spec now u); [lia |].
      apply IH. intros q' u' Hin. apply Hpre. by right.
    + apply IH. intros q' u' Hin. apply Hpre. by right.
Qed.

Lemma first_after_none (ps : list string) :
  (∀ q u, q ∈ ps → times !! q = Some u → u ≤ now) →
  Manager.first_after times now ps = None.
Proof.
  induction ps as [|q ps IH]; intros Hps; simpl; [done |].
  destruct (times !! q) as [u|] eqn:Hq.
  - assert (u ≤ now) by (eapply Hps; [left | done]).
    destruct (Z.ltb_spec now u); [lia |].
    apply IH. intros q' u' Hin. apply Hps. by right.
  - apply IH. intros q' u' Hin. apply Hps. by right.
Qed.

Lemma first_after_sound (ps : list string) (p : string) (t : Z) :
  Manager.first_after times now ps = Some (p, t) →
  p ∈ ps ∧ times !! p = Some t ∧ now < t.
Proof.
  induction ps as [|q ps IH]; simpl; [done |].
  destruct (times !! q) as [u|] eqn:Hq.
  - destruct (Z.ltb_spec now u).
    + intros [= <- <-]. split; [left | done].
    + intros H'. destruct (IH H') as (? & ? & ?). split; [by right | done].
  - intros H'. destruct (IH H') as (? & ? & ?). split; [by right | done].
Qed.
End FirstAfter.

Lemma get_next_prayer_run (now : Z) (self : PrayerTimesManager) :
  Manager.get_next_prayer now self =
  (inr match Manager.first_after (prayer_times self) now PRAYERS with
       | Some found => Some found
       | None =>
           match prayer_times self !! "Fajr" with
           | Some fajr => Some ("Fajr", fajr + timedelta_days 1)
           | None => None
           end
       end, self).
Proof.
  unfold Manager.get_next_prayer, reads, mbind, M_bind, mret, M_ret.
  destruct (Manager.first_after _ _ _); [done |].
  by destruct (prayer_times self !! "Fajr").
Qed.

(** A property of every entry of a closed map, by evaluation. *)
Ltac all_entries :=
  lazymatch goal with
  | |- ∀ (p : string) (t : Z), ?m !! p = Some t → @?P p t =>
      apply (bool_decide_unpack (map_Forall P m)); vm_compute; exact I
  end.

(** ** get_next_prayer *)

(** C1. For every schedule and every instant [now], [get_next_prayer]
    scans Fajr, Dhuhr, Asr, Maghrib, Isha in that order and returns the
    first prayer that is in the schedule with a time strictly after [now]
    (every prayer before it in the order is absent or not after [now]).
    In particular, when all five are present with strictly increasing
    times and [now] lies strictly between the times of Fajr and Isha, the
    result is a prayer of today whose time is the earliest one after
    [now]. *)
Theorem get_next_prayer_first_upcoming (self : PrayerTimesManager) (now : Z) :
  (∀ (pre post : list string) (p : string) (t : Z),
      PRAYERS = (pre ++ p :: post)%list →
      prayer_times self !! p = Some t → now < t →
      (∀ q u, q ∈ pre → prayer_times self !! q = Some u → u ≤ now) →
      Manager.get_next_prayer now self = (inr (Some (p, t)), self))
  ∧
  (∀ tF tD tA tM tI : Z,
      prayer_times self !! "Fajr" = Some tF →
      prayer_times self !! "Dhuhr" = Some tD →
      prayer_times self !! "Asr" = Some tA →
      prayer_times self !! "Maghrib" = Some tM →
      prayer_times self !! "Isha" = Some tI →
      tF < tD ∧ tD < tA ∧ tA < tM ∧ tM < tI →
      tF < now ∧ now < tI →
      ∃ p t,
        Manager.get_next_prayer now self = (inr (Some (p, t)), self) ∧
        p ∈ PRAYERS ∧ prayer_times self !! p = Some t ∧ now < t ∧
        ∀ q u, q ∈ PRAYERS → prayer_times self !! q = Some u → now < u → t ≤ u).
Proof.
  split.
  - intros pre post p t HP Hp Ht Hpre.
    rewrite get_next_prayer_run, HP.
    by rewrite (first_after_found _ _ pre post p t Hp Ht Hpre).
  - intros tF tD tA tM tI HF HD HA HM HI Hinc Hnow.
    destruct (Manager.first_after (prayer_times self) now PRAYERS)
      as [[p t]|] eqn:Hscan.
    + exists p, t. rewrite get_next_prayer_run, Hscan.
      destruct (first_after_sound _ _ _ _ _ Hscan) as (Hin & Hp & Ht).
      repeat split; try done.
      intros q u Hq Hu Hlt.
      revert Hscan. unfold PRAYERS in *. simpl. rewrite HF, HD, HA, HM, HI.
      repeat match goal with
             | |- context [?a <? ?b] => destruct (Z.ltb_spec a b)
             end;
        intros [= <- <-]; try lia;
        repeat match goal with
               | H : _ ∈ _ :: _ |- _ => apply elem_of_cons in H as [-> | H]
               | H : _ ∈ [] |- _ => by apply elem_of_nil in H
               end;
        simplify_eq; lia.
    + exfalso. revert Hscan. unfold PRAYERS. simpl. rewrite HF, HD, HA, HM, HI.
      repeat match goal with
             | |- context [?a <? ?b] => destruct (Z.ltb_spec a b)
             end; try done; lia.
Qed.

Lemma get_next_prayer_first_upcoming_witness :
  Manager.get_next_prayer (at0 14 0 0 0) manager0
  = (inr (Some ("Asr", at0 15 45 0 0)), manager0)
  ∧ ∃ p t,
      Manager.get_next_prayer (at0 14 0 0 0) manager0 = (inr (Some (p, t)), manager0) ∧
      p ∈ PRAYERS ∧ prayer_times manager0 !! p = Some t ∧ at0 14 0 0 0 < t ∧
      ∀ q u, q ∈ PRAYERS → prayer_times manager0 !! q = Some u → at0 14 0 0 0 < u → t ≤ u.
Proof.
  split.
  - apply (proj1 (get_next_prayer_first_upcoming manager0 (at0 14 0 0 0))
             ["Fajr"; "Dhuhr"] ["Maghrib"; "Isha"]).
    + reflexivity.
    + reflexivity.
    + reflexivity.
    + intros q u Hq.
      apply elem_of_cons in Hq as [-> | Hq];
        [| apply elem_of_cons in Hq as [-> | Hq]; [| by apply elem_of_nil in Hq]];
        intros [= <-]; vm_compute; discriminate.
  - apply (proj2 (get_next_prayer_first_upcoming manager0 (at0 14 0 0 0))
             (at0 5 12 0 0) (at0 12 30 0 0) (at0 15 45 0 0) (at0 18 20 0 0) (at0 19 50 0 0));
      try reflexivity.
    + repeat split; reflexivity.
    + split; reflexivity.
Defined.

(** C2. For every schedule that contains Fajr and every [now] strictly
    after all stored prayer times, [get_next_prayer] returns Fajr with the
    stored Fajr instant moved 24 hours on; the schedule is left as it is
    and nothing is fetched. *)
Theorem get_next_prayer_tomorrow_fajr (self : PrayerTimesManager) (now fajr : Z) :
  prayer_times self !! "Fajr" = Some fajr →
  (∀ p t, prayer_times self !! p = Some t → t < now) →
  Manager.get_next_prayer now self = (inr (Some ("Fajr", fajr + 24 * US_PER_HOUR)), self).
Proof.
  intros HF Hall. rewrite get_next_prayer_run, first_after_none, HF.
  - done.
  - intros q u _ Hu. specialize (Hall q u Hu). lia.
Qed.

Lemma get_next_prayer_tomorrow_fajr_witness :
  Manager.get_next_prayer (at0 20 0 0 0) manager0
  = (inr (Some ("Fajr", at0 5 12 0 0 + 24 * US_PER_HOUR)), manager0).
Proof.
  apply get_next_prayer_tomorrow_fajr.
  - reflexivity.
  - all_entries.
Defined.

(** C6. For every schedule without Fajr and every [now] after all stored
    prayer times, [get_next_prayer] returns [None]; it does not raise. *)
Theorem get_next_prayer_no_fajr (self : PrayerTimesManager) (now : Z) :
  prayer_times self !! "Fajr" = None →
  (∀ p t, prayer_times self !! p = Some t → t < now) →
  Manager.get_next_prayer now self = (inr None, self).
Proof.
  intros HF Hall. rewrite get_next_prayer_run, first_after_none, HF.
  - done.
  - intros q u _ Hu. specialize (Hall q u Hu). lia.
Qed.

Lemma get_next_prayer_no_fajr_witness :
  Manager.get_next_prayer (at0 20 0 0 0)
    (set_prayer_times (delete "Fajr") manager0)
  = (inr None, set_prayer_times (delete "Fajr") manager0).
Proof.
  apply get_next_prayer_no_fajr.
  - reflexivity.
  - all_entries.
Defined.

(** ** get_time_remaining *)

Lemma get_time_remaining_run (now target : Z) (self : PrayerTimesManager) :
  Manager.get_time_remaining now target self =
  (inr (if target <? now then (0, 0, 0)
        else hms_of_duration ((target - now) mod US_PER_DAY)), self).
Proof.
  unfold Manager.get_time_remaining. rewrite Qltb_total_seconds_0.
  replace (target - now <? 0) with (target <? now)
    by (destruct (Z.ltb_spec target now), (Z.ltb_spec (target - now) 0); lia).
  by destruct (target <? now).
Qed.

Lemma hms_of_duration_bounds (d : Z) :
  0 ≤ d < US_PER_DAY →
  ∃ h m s, hms_of_duration d = (h, m, s) ∧
           0 ≤ h ≤ 23 ∧ 0 ≤ m ≤ 59 ∧ 0 ≤ s ≤ 59.
Proof.
  intros Hd. unfold hms_of_duration. eexists _, _, _. split; [reflexivity |].
  unfold US_PER_DAY, US_PER_SECOND in *.
  repeat split; Z.div_mod_to_equations; lia.
Qed.

(** C3, amended.  When [target] is before [now] the result is (0, 0, 0).
    Otherwise it is the decomposition, by whole hours, whole minutes
    within the hour and whole seconds within the minute, of the duration
    [target - now] with its whole days taken off (the part below a second
    is dropped); for a duration under 24 hours that is the decomposition
    of the duration itself, and [target = now + 3h25m10s] gives
    (3, 25, 10). *)
Theorem get_time_remaining_decomposition (self : PrayerTimesManager) (now target : Z) :
  (target < now →
   Manager.get_time_remaining now target self = (inr (0, 0, 0), self))
  ∧ (now ≤ target →
     Manager.get_time_remaining now target self
     = (inr (hms_of_duration ((target - now) mod US_PER_DAY)), self))
  ∧ (now ≤ target ∧ target < now + US_PER_DAY →
     Manager.get_time_remaining now target self
     = (inr (hms_of_duration (target - now)), self))
  ∧ Manager.get_time_remaining now (now + (3 * 3600 + 25 * 60 + 10) * US_PER_SECOND) self
    = (inr (3, 25, 10), self).
Proof.
  repeat split.
  - intros H. rewrite get_time_remaining_run.
    destruct (Z.ltb_spec target now); [done | lia].
  - intros H. rewrite get_time_remaining_run.
    destruct (Z.ltb_spec target now); [lia | done].
  - intros [H1 H2]. rewrite get_time_remaining_run.
    destruct (Z.ltb_spec target now); [lia |].
    rewrite Z.mod_small; [done | lia].
  - rewrite get_time_remaining_run.
    match goal with |- context [?a <? now] => destruct (Z.ltb_spec a now) as [H|H] end.
    + unfold US_PER_SECOND in H. lia.
    + replace (now + (3 * 3600 + 25 * 60 + 10) * US_PER_SECOND - now)
        with ((3 * 3600 + 25 * 60 + 10) * US_PER_SECOND) by lia.
      reflexivity.
Qed.

Lemma get_time_remaining_decomposition_witness :
  Manager.get_time_remaining (at0 14 0 0 0) (at0 15 45 0 0) manager0
  = (inr (1, 45, 0), manager0)
  ∧ Manager.get_time_remaining (at0 14 0 0 0) (at0 12 30 0 0) manager0
    = (inr (0, 0, 0), manager0).
Proof.
  split.
  - apply (proj1 (proj2 (proj2
             (get_time_remaining_decomposition manager0 (at0 14 0 0 0) (at0 15 45 0 0))))).
    split; [vm_compute; discriminate | reflexivity].
  - apply (proj1 (get_time_remaining_decomposition manager0 (at0 14 0 0 0) (at0 12 30 0 0))).
    reflexivity.
Defined.

(** C3 as stated fails for a target a day or more ahead: 25 hours ahead
    the method returns (1, 0, 0), while the duration has 25 whole hours. *)
Lemma get_time_remaining_25h_counterexample :
  ¬ (at0 14 0 0 0 + 25 * US_PER_HOUR < at0 14 0 0 0)
  ∧ hms_of_duration (at0 14 0 0 0 + 25 * US_PER_HOUR - at0 14 0 0 0) = (25, 0, 0)
  ∧ Manager.get_time_remaining (at0 14 0 0 0) (at0 14 0 0 0 + 25 * US_PER_HOUR) manager0
    = (inr (1, 0, 0), manager0)
  ∧ (Manager.get_time_remaining (at0 14 0 0 0) (at0 14 0 0 0 + 25 * US_PER_HOUR) manager0).1
    ≠ inr (hms_of_duration (at0 14 0 0 0 + 25 * US_PER_HOUR - at0 14 0 0 0)).
Proof.
  repeat split; try reflexivity.
  - vm_compute. discriminate.
  - vm_compute. discriminate.
Qed.

(** C9. For every [now] and every target whatsoever, also one more than
    24 hours ahead, [get_time_remaining] returns a triple with hours in
    0..23, minutes in 0..59 and seconds in 0..59. *)
Theorem get_time_remaining_bounds (self : PrayerTimesManager) (now target : Z) :
  ∃ h m s,
    Manager.get_time_remaining now target self = (inr (h, m, s), self) ∧
    0 ≤ h ≤ 23 ∧ 0 ≤ m ≤ 59 ∧ 0 ≤ s ≤ 59.
Proof.
  rewrite get_time_remaining_run. destruct (target <? now).
  - exists 0, 0, 0. split; [done | lia].
  - destruct (hms_of_duration_bounds ((target - now) mod US_PER_DAY))
      as (h & m & s & -> & Hb).
    + apply Z.mod_pos_bound. reflexivity.
    + by exists h, m, s.
Qed.

(** ** is_prayer_time *)

Lemma is_prayer_time_run (now : Z) (prayer : string) (self : PrayerTimesManager) :
  Manager.is_prayer_time now prayer self =
  (inr match prayer_times self !! prayer with
       | Some t => Z.abs (now - t) <? 60 * US_PER_SECOND
       | None => false
       end, self).
Proof.
  unfold Manager.is_prayer_time, reads, mbind, M_bind, mret, M_ret.
  destruct (prayer_times self !! prayer); [| done].
  by rewrite Qltb_abs_total_seconds_60.
Qed.

(** C4. For every prayer name and every [now], [is_prayer_time] is true
    exactly when the prayer is in the schedule and [now] is less than 60
    seconds away from its time, on either side; so it is true up to 59
    seconds before or after the time and false 61 seconds before or
    after it. *)
Theorem is_prayer_time_window (self : PrayerTimesManager) (now : Z) (prayer : string) :
  (∃ b, Manager.is_prayer_time now prayer self = (inr b, self) ∧
        (b = true ↔
         ∃ t, prayer_times self !! prayer = Some t ∧ Z.abs (now - t) < 60 * US_PER_SECOND))
  ∧ (∀ t d, prayer_times self !! prayer = Some t →
            - (59 * US_PER_SECOND) ≤ d ∧ d ≤ 59 * US_PER_SECOND →
            Manager.is_prayer_time (t + d) prayer self = (inr true, self))
  ∧ (∀ t, prayer_times self !! prayer = Some t →
          Manager.is_prayer_time (t + 61 * US_PER_SECOND) prayer self = (inr false, self) ∧
          Manager.is_prayer_time (t - 61 * US_PER_SECOND) prayer self = (inr false, self)).
Proof.
  repeat split.
  - eexists. split; [apply is_prayer_time_run |].
    destruct (prayer_times self !! prayer) as [t|]; split.
    + intros H. exists t. split; [done |]. by apply Z.ltb_lt.
    + intros (t' & [= <-] & H). by apply Z.ltb_lt.
    + done.
    + by intros (t' & [=] & _).
  - intros t d Ht Hd. rewrite is_prayer_time_run, Ht. do 2 f_equal.
    apply Z.ltb_lt. unfold US_PER_SECOND in *. lia.
  - rewrite is_prayer_time_run, H. do 2 f_equal.
    apply Z.ltb_ge. unfold US_PER_SECOND in *. lia.
  - rewrite is_prayer_time_run, H. do 2 f_equal.
    apply Z.ltb_ge. unfold US_PER_SECOND in *. lia.
Qed.

Lemma is_prayer_time_window_witness :
  Manager.is_prayer_time (at0 12 30 0 0 + 59 * US_PER_SECOND) "Dhuhr" manager0
  = (inr true, manager0)
  ∧ Manager.is_prayer_time (at0 12 30 0 0 + 61 * US_PER_SECOND) "Dhuhr" manager0
    = (inr false, manager0)
  ∧ Manager.is_prayer_time (at0 12 30 0 0 - 61 * US_PER_SECOND) "Dhuhr" manager0
    = (inr false, manager0).
Proof.
  split.
  - apply (proj1 (proj2 (is_prayer_time_window manager0 0 "Dhuhr"))).
    + reflexivity.
    + split; vm_compute; discriminate.
  - apply (proj2 (proj2 (is_prayer_time_window manager0 0 "Dhuhr"))).
    reflexivity.
Defined.

(** ** The progress bar *)

Section LastBefore.
Variable times : gmap string Z.
Variable now : Z.

Lemma last_before_found (pre post : list string) (p : string) (t : Z) :
  times !! p = Some t → t < now →
  (∀ q u, q ∈ pre → times !! q = Some u → now ≤ u) →
  Display.last_before times now (pre ++ p :: post) = Some t.
Proof.
  intros Hp Ht. induction pre as [|q pre IH]; intros Hpre; simpl.
  - rewrite Hp. destruct (Z.ltb_spec t now); [done | lia].
  - destruct (times !! q) as [u|] eqn:Hq.
    + assert (now ≤ u) by (eapply Hpre; [left | done]).
      destruct (Z.ltb_spec u now); [lia |].
      apply IH. intros q' u' Hin. apply Hpre. by right.
    + apply IH. intros q' u' Hin. apply Hpre. by right.
Qed.

Lemma last_before_none (ps : list string) :
  (∀ q u, q ∈ ps → times !! q = Some u → now ≤ u) →
  Display.last_before times now ps = None.
Proof.
  induction ps as [|q ps IH]; intros Hps; simpl; [done |].
  destruct (times !! q) as [u|] eqn:Hq.
  - assert (now ≤ u) by (eapply Hps; [left | done]).
    destruct (Z.ltb_spec u now); [lia |].
    apply IH. intros q' u' Hin. apply Hps. by right.
  - apply IH. intros q' u' Hin. apply Hps. by right.
Qed.

(** The window starts at the first prayer, in the order Isha, Maghrib,
    Asr, Dhuhr, Fajr, that is in the schedule with a time before [now]. *)
Lemma prev_prayer_time_found (pre post : list string) (p : string) (t : Z) :
  ["Isha"; "Maghrib"; "Asr"; "Dhuhr"; "Fajr"] = (pre ++ p :: post)%list →
  times !! p = Some t → t < now →
  (∀ q u, q ∈ pre → times !! q = Some u → now ≤ u) →
  Display.prev_prayer_time times now = t.
Proof.
  intros Hl Hp Ht Hpre. unfold Display.prev_prayer_time.
  by rewrite Hl, (last_before_found pre post p t Hp Ht Hpre).
Qed.

(** When no prayer has passed, the window starts at midnight of the day
    of [now] plus the microseconds of [now]. *)
Lemma prev_prayer_time_default :
  (∀ q u, times !! q = Some u → now ≤ u) →
  Display.prev_prayer_time times now = midnight now + dt_microsecond now.
Proof.
  intros Hall. unfold Display.prev_prayer_time.
  rewrite last_before_none; [| by intros q u _; apply Hall].
  unfold replace_hms0, midnight, mk_datetime. lia.
Qed.
End LastBefore.

Lemma Qltb_lt (a b : Q) : Qltb a b = true ↔ (a < b)%Q.
Proof.
  unfold Qltb. rewrite negb_true_iff. split.
  - intros H. apply Qnot_le_lt. intros Hle. apply Qle_bool_iff in Hle. congruence.
  - intros H. destruct (Qle_bool b a) eqn:E; [| done].
    apply Qle_bool_iff in E. exfalso. by apply (Qlt_not_le a b).
Qed.

Lemma py_min_max_clamp (x : Q) : (py_min 1 (py_max 0 x) == clamp01 x)%Q.
Proof.
  unfold py_min, py_max, clamp01.
  destruct (Qltb 0 x) eqn:E0.
  - apply Qltb_lt in E0.
    destruct (Qltb x 0) eqn:E1.
    + apply Qltb_lt in E1. exfalso. apply (Qlt_irrefl 0). by apply Qlt_trans with x.
    + destruct (Qltb x 1) eqn:E2, (Qltb 1 x) eqn:E3; try reflexivity.
      * apply Qltb_lt in E2, E3. exfalso. apply (Qlt_irrefl 1). by apply Qlt_trans with x.
      * apply Qle_antisym; apply Qnot_lt_le; intros H; apply Qltb_lt in H; congruence.
  - replace (Qltb 0 1) with true by reflexivity.
    destruct (Qltb x 0) eqn:E1; [reflexivity |].
    replace (Qltb 1 x) with false; [| symmetry].
    + apply Qle_antisym; apply Qnot_lt_le; intros H; apply Qltb_lt in H; congruence.
    + destruct (Qltb 1 x) eqn:E3; [| done].
      apply Qltb_lt in E3. assert (Qltb 0 x = true); [| congruence].
      apply Qltb_lt. by apply Qlt_trans with 1%Q.
Qed.

Lemma progress_run (now prayer_time : Z) (self : PrayerTimesManager) :
  Display.progress now prayer_time self =
  (inr (let prev := Display.prev_prayer_time (prayer_times self) now in
        if 0 <? prayer_time - prev
        then py_min 1 (py_max 0 (total_seconds (now - prev) / total_seconds (prayer_time - prev)))
        else 0)%Q, self).
Proof.
  unfold Display.progress, reads, mbind, M_bind, mret, M_ret.
  by rewrite Qltb_0_total_seconds.
Qed.

(** The fraction is the quotient of the elapsed time by the length of the
    window, clamped to [0, 1], and 0 for a window of no positive length. *)
Lemma progress_fraction (now prayer_time : Z) (self : PrayerTimesManager) :
  ∃ f, Display.progress now prayer_time self = (inr f, self) ∧
       let prev := Display.prev_prayer_time (prayer_times self) now in
       (0 < prayer_time - prev →
        (f == clamp01 (total_seconds (now - prev) / total_seconds (prayer_time - prev)))%Q)
       ∧ (prayer_time - prev ≤ 0 → f = 0%Q)
       ∧ (0 <= f)%Q ∧ (f <= 1)%Q.
Proof.
  eexists. split; [apply progress_run |]. cbv zeta.
  set (prev := Display.prev_prayer_time _ _).
  destruct (Z.ltb_spec 0 (prayer_time - prev)) as [H|H].
  - repeat split.
    + intros _. apply py_min_max_clamp.
    + lia.
    + rewrite py_min_max_clamp. unfold clamp01.
      destruct (Qltb _ 0) eqn:E1; [apply Qle_refl |].
      destruct (Qltb 1 _) eqn:E2; [done |].
      apply Qnot_lt_le. intros Hlt. apply Qltb_lt in Hlt. congruence.
    + rewrite py_min_max_clamp. unfold clamp01.
      destruct (Qltb _ 0) eqn:E1; [done |].
      destruct (Qltb 1 _) eqn:E2; [apply Qle_refl |].
      apply Qnot_lt_le. intros Hlt. apply Qltb_lt in Hlt. congruence.
  - repeat split; try done. lia.
Qed.

(** C5 at 03:00:00.5 on the day of the example, when no prayer has passed
    yet: the window of the progress bar starts at 00:00:00.5, half a
    second after local midnight, because [replace(hour=0, minute=0,
    second=0)] leaves the microseconds of [now] in place; the fraction
    shown is not the one measured from midnight. *)
Theorem progress_start_keeps_microsecond :
  (∀ q u, times0 !! q = Some u → at0 3 0 0 500000 ≤ u)
  ∧ Display.prev_prayer_time times0 (at0 3 0 0 500000) = at0 0 0 0 500000
  ∧ Display.prev_prayer_time times0 (at0 3 0 0 500000) ≠ midnight (at0 3 0 0 500000)
  ∧ ∃ f, Display.progress (at0 3 0 0 500000) (at0 5 12 0 0) manager0 = (inr f, manager0) ∧
         ¬ (f == clamp01 (total_seconds (at0 3 0 0 500000 - midnight (at0 3 0 0 500000))
                          / total_seconds (at0 5 12 0 0 - midnight (at0 3 0 0 500000))))%Q.
Proof.
  split; [| split; [| split]].
  - apply (bool_decide_unpack
             (map_Forall (λ (_ : string) (u : Z), at0 3 0 0 500000 ≤ u) times0)).
    vm_compute. exact I.
  - reflexivity.
  - vm_compute. discriminate.
  - eexists. split; [apply progress_run |].
    vm_compute. discriminate.
Qed.

(** ** Queries leave the schedule alone *)

Lemma pure_query_intro {A : Type} (q : M A) :
  (∀ self, ∃ r, q self = (inr r, self)) → pure_query q.
Proof.
  intros Hq self. destruct (Hq self) as [r Hr]. exists r. split; [done |].
  unfold mbind, M_bind, mret, M_ret. by rewrite !Hr.
Qed.

Lemma update_progress_run (now now' : Z) (self : PrayerTimesManager) :
  ∃ r, Display.update_progress now now' self = (inr r, self).
Proof.
  unfold Display.update_progress, mbind, M_bind, mret, M_ret.
  rewrite get_next_prayer_run.
  match goal with |- context [match ?x with Some _ => _ | None => _ end] => destruct x as [[p t]|] end.
  - rewrite progress_run. by eexists.
  - by eexists.
Qed.

(** C8. Each query ([get_next_prayer], [get_time_remaining],
    [is_prayer_time] and the progress computation) returns without
    raising and leaves the manager, so its times map, Hijri label and
    time zone, exactly as it was; called twice in a row with the same
    [now] on an unmodified schedule it returns the same result twice. *)
Theorem queries_are_pure (now now' target : Z) (prayer : string) :
  pure_query (Manager.get_next_prayer now)
  ∧ pure_query (Manager.get_time_remaining now target)
  ∧ pure_query (Manager.is_prayer_time now prayer)
  ∧ pure_query (Display.progress now target)
  ∧ pure_query (Display.update_progress now now').
Proof.
  repeat split; apply pure_query_intro; intros self.
  - eexists. apply get_next_prayer_run.
  - eexists. apply get_time_remaining_run.
  - eexists. apply is_prayer_time_run.
  - eexists. apply progress_run.
  - apply update_progress_run.
Qed.

(** ** update *)

Lemma store_time_run (date_obj : Z) (timings : gmap string string) (prayer : string)
    (self : PrayerTimesManager) :
  Manager.store_time date_obj timings prayer self =
  match timings !! prayer with
  | Some raw =>
      match split_ws raw with
      | [] => (inl IndexError, self)
      | time_str :: _ =>
          (inr tt, match parse_time date_obj time_str with
                   | Some t => set_prayer_times <[prayer := t]> self
                   | None => self
                   end)
      end
  | None => (inr tt, self)
  end.
Proof.
  unfold Manager.store_time, parse_time.
  destruct (timings !! prayer) as [raw|]; [| done].
  destruct (split_ws raw) as [|time_str ?]; [done |].
  destruct (parse_hour_minute time_str) as [|[h m]]; [done |].
  by destruct (replace_hm date_obj h m).
Qed.

(** A string without a word stops the loop with [IndexError]: the prayers
    after it are never stored. *)
Lemma store_times_blank (date_obj : Z) (timings : gmap string string)
    (pre post : list string) (p raw : string) (self : PrayerTimesManager) :
  timings !! p = Some raw → split_ws raw = [] →
  (∀ q r, q ∈ pre → timings !! q = Some r → split_ws r ≠ []) →
  ∃ self', Manager.store_times date_obj timings (pre ++ p :: post) self
           = (inl IndexError, self').
Proof.
  intros Hp Hraw. revert self.
  induction pre as [|q pre IH]; intros self Hpre; simpl;
    unfold mbind, M_bind; rewrite store_time_run.
  - rewrite Hp, Hraw. by eexists.
  - destruct (timings !! q) as [r|] eqn:Hq.
    + destruct (split_ws r) as [|w ws] eqn:Hr.
      * exfalso. eapply Hpre; [left | done | done].
      * apply IH. intros q' r' Hin. apply Hpre. by right.
    + apply IH. intros q' r' Hin. apply Hpre. by right.
Qed.

(** When every string has a word, the loop returns, touches only
    [prayer_times], and stores exactly the times that parse. *)
Lemma store_times_tolerant (date_obj : Z) (timings : gmap string string)
    (ps : list string) (self : PrayerTimesManager) :
  (∀ q r, q ∈ ps → timings !! q = Some r → split_ws r ≠ []) →
  ∃ self', Manager.store_times date_obj timings ps self = (inr tt, self') ∧
    hijri_date self' = hijri_date self ∧
    location_data self' = location_data self ∧
    timezone self' = timezone self ∧
    ∀ q, prayer_times self' !! q =
         if decide (q ∈ ps)
         then match stored_time date_obj timings q with
              | Some t => Some t
              | None => prayer_times self !! q
              end
         else prayer_times self !! q.
Proof.
  revert self. induction ps as [|p ps IH]; intros self Hps; simpl.
  - exists self. do 4 (split; [done |]). intros q.
    destruct (decide (q ∈ [])) as [Hin|]; [| done]. by apply elem_of_nil in Hin.
  - unfold mbind at 1, M_bind at 1. rewrite store_time_run.
    assert (∃ self1,
      match timings !! p with
      | Some raw =>
          match split_ws raw with
          | [] => (inl IndexError, self)
          | time_str :: _ =>
              (inr (), match parse_time date_obj time_str with
                       | Some t => set_prayer_times <[p:=t]> self
                       | None => self
                       end)
          end
      | None => (inr (), self)
      end = (inr (), self1) ∧
      hijri_date self1 = hijri_date self ∧
      location_data self1 = location_data self ∧
      timezone self1 = timezone self ∧
      ∀ q, prayer_times self1 !! q =
           if decide (q = p)
           then match stored_time date_obj timings q with
                | Some t => Some t
                | None => prayer_times self !! q
                end
           else prayer_times self !! q) as (self1 & -> & Hh & Hl & Hz & Hlk).
    { unfold stored_time. destruct (timings !! p) as [raw|] eqn:Hp.
      - destruct (split_ws raw) as [|w ws] eqn:Hr.
        + exfalso. eapply Hps; [left | done | done].
        + eexists. split; [done |].
          destruct (parse_time date_obj w) as [t|] eqn:Hw; repeat split; intros q;
            destruct (decide (q = p)) as [->|Hne]; simpl;
            rewrite ?Hp; simpl; rewrite ?Hr; simpl; rewrite ?Hw;
            rewrite ?lookup_insert_eq, ?lookup_insert_ne by done; done.
      - exists self. repeat split. intros q.
        destruct (decide (q = p)) as [->|Hne]; [| done]. by rewrite Hp. }
    destruct (IH self1) as (self' & Hrun & Hh' & Hl' & Hz' & Hlk').
    { intros q r Hin. apply Hps. by right. }
    exists self'. split; [done |]. repeat split; try congruence.
    intros q. rewrite Hlk', Hlk.
    destruct (decide (q ∈ ps)) as [Hin|Hnin], (decide (q = p)) as [->|Hne].
    + rewrite decide_True by left. by destruct (stored_time _ _ _).
    + rewrite decide_True by (by right). done.
    + rewrite decide_True by left. done.
    + rewrite decide_False; [done |].
      intros [?|?]%elem_of_cons; done.
Qed.

(** With an answer of the service in which every string of the five
    prayers has a word, [update] returns [True]; a prayer is in the new
    map exactly when its word parses as a time, whatever the others do. *)
Lemma update_tolerant (env : Env) (data : ApiData) (self : PrayerTimesManager) :
  fetch_prayer_times env = Some data →
  (∀ q r, q ∈ PRAYERS → timings data !! q = Some r → split_ws r ≠ []) →
  ∃ self', Manager.update env self = (inr true, self') ∧
    ∀ q, prayer_times self' !! q =
         if decide (q ∈ PRAYERS)
         then stored_time (clock env (timezone self')) (timings data) q
         else None.
Proof.
  intros Hfetch Hwords. unfold Manager.update. rewrite Hfetch.
  set (self0 := match config_timezone env with
                | Some tz_name =>
                    set_timezone (if zone_exists env tz_name then Some tz_name else None) self
                | None => self
                end).
  destruct (store_times_tolerant (clock env (timezone self0)) (timings data) PRAYERS
              (set_prayer_times (λ _, ∅) self0) Hwords)
    as (self1 & Hrun & Hh & Hl & Hz & Hlk).
  exists (set_location_data (get_location env)
            (set_hijri_date
               (hijri_day data +:+ " " +:+ hijri_month_en data +:+ " " +:+ hijri_year data)
               self1)).
  split.
  - unfold mbind, M_bind, mret, M_ret, modify, reads.
    destruct (config_timezone env); subst self0; cbn [fst snd] in *; by rewrite Hrun.
  - intros q. cbn. rewrite Hlk, Hz. cbn. rewrite lookup_empty.
    destruct (decide (q ∈ PRAYERS)); [| done]. by destruct (stored_time _ _ _).
Qed.

(** An Asr string that is not a time: Asr is left out, the other four
    prayers are stored and [update] returns [True]. *)
Example update_bad_asr :
  (Manager.update (env_with timings_bad_asr) manager0).1 = inr true
  ∧ prayer_times (Manager.update (env_with timings_bad_asr) manager0).2 !! "Fajr"
    = Some (at0 5 12 0 0)
  ∧ prayer_times (Manager.update (env_with timings_bad_asr) manager0).2 !! "Dhuhr"
    = Some (at0 12 30 0 0)
  ∧ prayer_times (Manager.update (env_with timings_bad_asr) manager0).2 !! "Asr" = None
  ∧ prayer_times (Manager.update (env_with timings_bad_asr) manager0).2 !! "Maghrib"
    = Some (at0 18 20 0 0)
  ∧ prayer_times (Manager.update (env_with timings_bad_asr) manager0).2 !! "Isha"
    = Some (at0 19 50 0 0).
Proof. repeat split. Qed.

(** C7 on an answer of the service whose Asr string is empty: the
    subscript [split()[0]] is outside the [try], [update] ends in
    [IndexError] instead of returning [True], and Maghrib and Isha,
    whose strings are fine, are missing from the map it leaves behind. *)
Theorem update_blank_time_raises :
  timings_blank_asr !! "Asr" = Some ""
  ∧ (Manager.update (env_with timings_blank_asr) manager0).1 = inl IndexError
  ∧ prayer_times (Manager.update (env_with timings_blank_asr) manager0).2 !! "Fajr"
    = Some (at0 5 12 0 0)
  ∧ prayer_times (Manager.update (env_with timings_blank_asr) manager0).2 !! "Maghrib" = None
  ∧ prayer_times (Manager.update (env_with timings_blank_asr) manager0).2 !! "Isha" = None.
Proof. repeat split. Qed.

(** ** The console variant against the manager *)

Lemma Zrange_forallb (P : Z → bool) (n : nat) :
  forallb P (Zrange n) = true → ∀ k, 0 ≤ k < Z.of_nat n → P k = true.
Proof.
  intros H k Hk. rewrite forallb_forall in H. apply H.
  unfold Zrange. apply in_map_iff. exists (Z.to_nat k). split; [lia |].
  apply in_seq. lia.
Qed.

Lemma cmp_digits_spec (a b : Z) :
  0 ≤ a < 100 → 0 ≤ b < 100 → cmp_digits a b = (a ?= b).
Proof.
  intros Ha Hb.
  assert (forallb (λ a, forallb (check_cmp a) (Zrange 100)) (Zrange 100) = true) as Hall
    by (vm_compute; reflexivity).
  pose proof (Zrange_forallb _ _ (Zrange_forallb _ _ Hall a Ha) b Hb) as Hc.
  unfold check_cmp in Hc. by destruct (cmp_digits a b), (a ?= b).
Qed.

Lemma fmt2_app (a : Z) (x : string) :
  fmt2 a +:+ x = String (digit_char (a / 10 mod 10)) (String (digit_char (a mod 10)) x).
Proof. reflexivity. Qed.

Lemma compare_cons (c d : ascii) (s t : string) :
  String.compare (String c s) (String d t) =
  match Ascii.compare c d with Eq => String.compare s t | r => r end.
Proof. reflexivity. Qed.

Lemma compare_fmt2 (a b : Z) (x y : string) :
  0 ≤ a < 100 → 0 ≤ b < 100 →
  String.compare (fmt2 a +:+ x) (fmt2 b +:+ y) =
  match a ?= b with Eq => String.compare x y | c => c end.
Proof.
  intros Ha Hb. rewrite <- (cmp_digits_spec a b Ha Hb).
  unfold cmp_digits. rewrite !fmt2_app, !compare_cons.
  repeat match goal with
         | |- context [Ascii.compare ?c ?d] => destruct (Ascii.compare c d)
         end; done.
Qed.

Lemma str_gt_fmt_hm (h m h' m' : Z) :
  0 ≤ h < 100 → 0 ≤ m < 100 → 0 ≤ h' < 100 → 0 ≤ m' < 100 →
  str_gt (fmt_hm h m) (fmt_hm h' m') =
  match h ?= h' with
  | Eq => match m ?= m' with Gt => true | _ => false end
  | Gt => true
  | Lt => false
  end.
Proof.
  intros. unfold str_gt, fmt_hm. rewrite compare_fmt2 by done.
  destruct (h ?= h'); try done.
  change (":" +:+ fmt2 m) with (String ":" (fmt2 m +:+ "")).
  change (":" +:+ fmt2 m') with (String ":" (fmt2 m' +:+ "")).
  rewrite compare_cons. replace (Ascii.compare ":" ":") with (@Eq) by reflexivity.
  rewrite compare_fmt2 by done. by destruct (m ?= m').
Qed.

Lemma parse_fmt_hm (h m : Z) :
  0 ≤ h < 24 → 0 ≤ m < 60 →
  parse_hour_minute (fmt_hm h m) = inr (h, m) ∧ split_ws (fmt_hm h m) = [fmt_hm h m].
Proof.
  intros Hh Hm.
  assert (forallb (λ h, forallb (check_parse h) (Zrange 60)) (Zrange 24) = true) as Hall
    by (vm_compute; reflexivity).
  pose proof (Zrange_forallb _ _ (Zrange_forallb _ _ Hall h Hh) m Hm) as Hc.
  unfold check_parse in Hc. apply andb_true_iff in Hc as [Hp Hs]. split.
  - destruct (parse_hour_minute (fmt_hm h m)) as [|[h' m']]; [done |].
    apply andb_true_iff in Hp as [->%Z.eqb_eq ->%Z.eqb_eq]. done.
  - destruct (split_ws (fmt_hm h m)) as [|w [|]]; [discriminate Hs | | discriminate Hs].
    apply String.eqb_eq in Hs. congruence.
Qed.

Lemma dt_fields_range (t : Z) :
  0 ≤ dt_hour t < 24 ∧ 0 ≤ dt_minute t < 60.
Proof.
  unfold dt_hour, dt_minute, US_PER_DAY, US_PER_HOUR, US_PER_MINUTE, US_PER_SECOND.
  split; Z.div_mod_to_equations; lia.
Qed.
Lemma lt_mk_datetime (now h m : Z) :
  0 ≤ m < 60 →
  (now <? mk_datetime (dt_date now) h m 0 0) =
  match h ?= dt_hour now with
  | Eq => match m ?= dt_minute now with Gt => true | _ => false end
  | Gt => true
  | Lt => false
  end.
Proof.
  intros Hm.
  pose proof (dt_fields_range now) as [HH HM].
  assert (now = mk_datetime (dt_date now) (dt_hour now) (dt_minute now) 0 0 + now mod US_PER_MINUTE) as Hdec.
  { unfold mk_datetime, dt_date, dt_hour, dt_minute, US_PER_DAY, US_PER_HOUR, US_PER_MINUTE, US_PER_SECOND.
    Z.div_mod_to_equations; lia. }
  assert (0 ≤ now mod US_PER_MINUTE < US_PER_MINUTE) by (apply Z.mod_pos_bound; reflexivity).
  set (r := now mod US_PER_MINUTE) in *. set (H' := dt_hour now) in *.
  set (Mi := dt_minute now) in *. set (d := dt_date now) in *.
  clearbody r H' Mi d.
  unfold mk_datetime, US_PER_DAY, US_PER_HOUR, US_PER_MINUTE, US_PER_SECOND in *.
  destruct (Z.compare_spec h H'), (Z.compare_spec m Mi), (Z.ltb_spec now (d * (86400 * 1000000) + h * (3600 * 1000000) + m * (60 * 1000000) + 0 * 1000000 + 0)); try reflexivity; lia.
Qed.

Section SameDay.
Variable timings : gmap string string.
Variable times : gmap string Z.
Variables date_obj now : Z.
Hypothesis same_day : dt_date date_obj = dt_date now.

(** One well-formed string: the manager stores its time on the day of
    [now], and the string comparison of the console variant decides as
    the datetime comparison of the manager does. *)
Lemma entry_agrees (p s : string) :
  timings !! p = Some s → well_formed_hm s →
  ∃ t, stored_time date_obj timings p = Some t ∧
       str_gt s (strftime_HM now) = (now <? t).
Proof.
  intros Hp (h & m & Hh & Hm & ->).
  destruct (parse_fmt_hm h m Hh Hm) as [Hparse Hsplit].
  exists (mk_datetime (dt_date now) h m 0 0). split.
  - unfold stored_time, parse_time, replace_hm.
    rewrite Hp. cbn [mbind option_bind]. rewrite Hsplit. cbn [head mbind option_bind].
    rewrite Hparse, same_day.
    replace ((0 <=? h) && (h <=? 23) && (0 <=? m) && (m <=? 59)) with true; [done |].
    symmetry. rewrite !andb_true_iff, !Z.leb_le. lia.
  - pose proof (dt_fields_range now) as [HH HM].
    unfold strftime_HM. rewrite str_gt_fmt_hm by lia.
    by rewrite lt_mk_datetime.
Qed.

Lemma first_after_agree (ps : list string) :
  (∀ p s, p ∈ ps → timings !! p = Some s → well_formed_hm s) →
  (∀ p, p ∈ ps → times !! p = stored_time date_obj timings p) →
  fst <$> Console.first_after timings (strftime_HM now) ps
  = fst <$> Manager.first_after times now ps.
Proof.
  induction ps as [|p ps IH]; intros Hwf Hst; [done |].
  assert (fst <$> Console.first_after timings (strftime_HM now) ps
          = fst <$> Manager.first_after times now ps) as IH'.
  { apply IH; [intros q s Hq | intros q Hq]; [apply Hwf | apply Hst]; by right. }
  cbn [Console.first_after Manager.first_after].
  rewrite (Hst p) by left.
  destruct (timings !! p) as [s|] eqn:Hp.
  - destruct (entry_agrees p s Hp) as (t & -> & ->); [apply (Hwf p); [left | done] |].
    by destruct (now <? t).
  - unfold stored_time. rewrite Hp. done.
Qed.
End SameDay.

(** C10. For time strings that are well-formed zero-padded ["HH:MM"]
    values, kept as they are by the console variant and turned by the
    manager into datetimes of the day of [now], the search of the console
    variant over Fajr, Dhuhr, Asr, Maghrib, Isha, comparing strings with
    the current ["HH:MM"], selects the same prayer as the search of the
    manager, comparing datetimes; when Fajr is among the strings the two
    methods name the same next prayer also after the last prayer of the
    day. *)
Theorem console_selects_like_manager (timings : gmap string string)
    (self : PrayerTimesManager) (date_obj now : Z) :
  dt_date date_obj = dt_date now →
  (∀ p s, p ∈ PRAYERS → timings !! p = Some s → well_formed_hm s) →
  (∀ p, p ∈ PRAYERS → prayer_times self !! p = stored_time date_obj timings p) →
  fst <$> Console.first_after timings (strftime_HM now) PRAYERS
  = fst <$> Manager.first_after (prayer_times self) now PRAYERS
  ∧ (is_Some (timings !! "Fajr") →
     ∃ r g, Console.get_next_prayer (Console.mkAdhanLive PRAYERS timings) now = inr r ∧
            Manager.get_next_prayer now self = (inr g, self) ∧
            Console.next_name r = fst <$> g).
Proof.
  intros Hday Hwf Hst.
  pose proof (first_after_agree timings (prayer_times self) date_obj now Hday PRAYERS Hwf Hst)
    as Hscan.
  split; [done |]. intros [s Hs].
  rewrite get_next_prayer_run. unfold Console.get_next_prayer.
  cbn [Console.prayer_times Console.enabled_prayers].
  rewrite bool_decide_eq_false_2; [| intros ->; by rewrite lookup_empty in Hs].
  destruct (Console.first_after timings (strftime_HM now) PRAYERS) as [[p u]|],
    (Manager.first_after (prayer_times self) now PRAYERS) as [[q t]|];
    try discriminate Hscan.
  - injection Hscan as ->. by eexists _, _.
  - destruct (entry_agrees timings date_obj now Hday "Fajr" s Hs) as (t & Ht & _).
    { apply (Hwf "Fajr"); [left | done]. }
    rewrite (Hst "Fajr"), Ht by left. by eexists _, _.
Qed.

Lemma console_selects_like_manager_witness :
  fst <$> Console.first_after timings0 (strftime_HM (at0 14 0 0 0)) PRAYERS
  = fst <$> Manager.first_after (prayer_times manager0) (at0 14 0 0 0) PRAYERS
  ∧ (is_Some (timings0 !! "Fajr") →
     ∃ r g, Console.get_next_prayer (Console.mkAdhanLive PRAYERS timings0) (at0 14 0 0 0) = inr r ∧
            Manager.get_next_prayer (at0 14 0 0 0) manager0 = (inr g, manager0) ∧
            Console.next_name r = fst <$> g).
Proof.
  apply (console_selects_like_manager timings0 manager0 (at0 0 5 0 123456) (at0 14 0 0 0)).
  - reflexivity.
  - intros p s Hp.
    repeat (apply elem_of_cons in Hp as [-> | Hp]); [.. | by apply elem_of_nil in Hp];
      intros [= <-].
    + exists 5, 12. repeat split; try reflexivity; vm_compute; discriminate.
    + exists 12, 30. repeat split; try reflexivity; vm_compute; discriminate.
    + exists 15, 45. repeat split; try reflexivity; vm_compute; discriminate.
    + exists 18, 20. repeat split; try reflexivity; vm_compute; discriminate.
    + exists 19, 50. repeat split; try reflexivity; vm_compute; discriminate.
  - intros p Hp.
    repeat (apply elem_of_cons in Hp as [-> | Hp]); [.. | by apply elem_of_nil in Hp];
      reflexivity.
Defined.

(** At 14:00 both variants name Asr; at 20:00, after Isha, both name Fajr. *)
Example console_and_manager_at_14_and_20 :
  Console.get_next_prayer (Console.mkAdhanLive PRAYERS timings0) (at0 14 0 0 0)
  = inr (Console.Next "Asr" "العصر" "15:45")
  ∧ (Manager.get_next_prayer (at0 14 0 0 0) manager0).1 = inr (Some ("Asr", at0 15 45 0 0))
  ∧ Console.get_next_prayer (Console.mkAdhanLive PRAYERS timings0) (at0 20 0 0 0)
    = inr (Console.Next "Fajr" "الفجر" "05:12")
  ∧ (Manager.get_next_prayer (at0 20 0 0 0) manager0).1
    = inr (Some ("Fajr", at0 5 12 0 0 + timedelta_days 1)).
Proof. repeat split. Qed.

(** * Further properties of the code *)

(** ** update: what a refresh stores *)

Lemma mk_datetime_fields (D h m : Z) :
  0 ≤ h ≤ 23 → 0 ≤ m ≤ 59 →
  dt_date (mk_datetime D h m 0 0) = D ∧
  dt_hour (mk_datetime D h m 0 0) = h ∧
  dt_minute (mk_datetime D h m 0 0) = m ∧
  dt_second (mk_datetime D h m 0 0) = 0 ∧
  dt_microsecond (mk_datetime D h m 0 0) = 0.
Proof.
  intros Hh Hm.
  unfold dt_date, dt_hour, dt_minute, dt_second, dt_microsecond, mk_datetime,
    US_PER_DAY, US_PER_HOUR, US_PER_MINUTE, US_PER_SECOND.
  repeat split; Z.div_mod_to_equations; lia.
Qed.

Lemma parse_time_some (date_obj : Z) (time_str : string) (t : Z) :
  parse_time date_obj time_str = Some t →
  ∃ h m, parse_hour_minute time_str = inr (h, m) ∧ 0 ≤ h ≤ 23 ∧ 0 ≤ m ≤ 59 ∧
         t = mk_datetime (dt_date date_obj) h m 0 0.
Proof.
  unfold parse_time, replace_hm.
  destruct (parse_hour_minute time_str) as [|[h m]]; [done |].
  destruct ((0 <=? h) && (h <=? 23) && (0 <=? m) && (m <=? 59)) eqn:E; [| done].
  intros [= <-]. exists h, m.
  rewrite !andb_true_iff, !Z.leb_le in E. repeat split; try done; lia.
Qed.

Lemma stored_time_some (date_obj : Z) (timings : gmap string string) (p : string) (t : Z) :
  stored_time date_obj timings p = Some t →
  is_Some (timings !! p) ∧
  ∃ h m, 0 ≤ h ≤ 23 ∧ 0 ≤ m ≤ 59 ∧ t = mk_datetime (dt_date date_obj) h m 0 0.
Proof.
  unfold stored_time. destruct (timings !! p) as [raw|]; [| done].
  cbn [mbind option_bind]. destruct (head (split_ws raw)) as [w|]; [| done].
  cbn [mbind option_bind]. intros (h & m & _ & Hh & Hm & ->)%parse_time_some.
  split; [by eexists |]. by exists h, m.
Qed.

(** The loop reads [self] only through [prayer_times] and writes nothing
    else: run from another manager with the same map, it gives the same
    result and the same new map. *)
Lemma store_times_frame (date_obj : Z) (timings : gmap string string) (ps : list string)
    (self self2 : PrayerTimesManager) :
  prayer_times self2 = prayer_times self →
  Manager.store_times date_obj timings ps self2 =
  ((Manager.store_times date_obj timings ps self).1,
   set_prayer_times (λ _, prayer_times (Manager.store_times date_obj timings ps self).2) self2).
Proof.
  revert self self2. induction ps as [|p ps IH]; intros self self2 Heq; simpl.
  - unfold mret, M_ret. cbn. destruct self2; cbn in *. by rewrite Heq.
  - unfold mbind, M_bind. rewrite !store_time_run.
    destruct (timings !! p) as [raw|].
    + destruct (split_ws raw) as [|w ws].
      * cbn. destruct self2; cbn in *. by rewrite Heq.
      * destruct (parse_time date_obj w) as [t|]; [| by apply IH].
        rewrite (IH (set_prayer_times <[p:=t]> self) (set_prayer_times <[p:=t]> self2))
          by (cbn; by rewrite Heq).
        reflexivity.
    + by apply IH.
Qed.

Lemma store_times_app (date_obj : Z) (timings : gmap string string) (l1 l2 : list string)
    (self : PrayerTimesManager) :
  Manager.store_times date_obj timings (l1 ++ l2) self =
  (Manager.store_times date_obj timings l1 ;; Manager.store_times date_obj timings l2) self.
Proof.
  revert self. induction l1 as [|p l1 IH]; intros self; simpl.
  - done.
  - unfold mbind, M_bind in *.
    destruct (Manager.store_time date_obj timings p self) as [[e|[]] self1]; [done |].
    apply IH.
Qed.

(** Whatever the loop does, returning or raising, the entries it leaves in
    a map that was empty are of the prayers of the list, at the times
    their strings give. *)
Lemma store_times_entries (date_obj : Z) (timings : gmap string string) (ps : list string)
    (self : PrayerTimesManager) :
  ∀ q t, prayer_times (Manager.store_times date_obj timings ps self).2 !! q = Some t →
         prayer_times self !! q = Some t ∨
         (q ∈ ps ∧ stored_time date_obj timings q = Some t).
Proof.
  revert self. induction ps as [|p ps IH]; intros self q t; simpl.
  - by left.
  - unfold mbind, M_bind. rewrite store_time_run.
    destruct (timings !! p) as [raw|] eqn:Hp.
    + destruct (split_ws raw) as [|w ws] eqn:Hw.
      * cbn. by left.
      * intros [H|[Hin H]]%IH.
        -- destruct (parse_time date_obj w) as [u|] eqn:Hu; [| by left].
           cbn in H. destruct (decide (q = p)) as [->|Hne].
           ++ rewrite lookup_insert_eq in H. injection H as ->. right.
              split; [left |]. unfold stored_time. rewrite Hp. cbn. by rewrite Hw.
           ++ rewrite lookup_insert_ne in H by done. by left.
        -- right. split; [by right | done].
    + intros [H|[Hin H]]%IH; [by left |]. right. split; [by right | done].
Qed.

Lemma manager_eq (a b : PrayerTimesManager) :
  prayer_times a = prayer_times b → hijri_date a = hijri_date b →
  location_data a = location_data b → timezone a = timezone b → a = b.
Proof. destruct a, b. cbn. by intros -> -> -> ->. Qed.

Lemma store_times_fields (date_obj : Z) (timings : gmap string string) (ps : list string)
    (self : PrayerTimesManager) :
  hijri_date (Manager.store_times date_obj timings ps self).2 = hijri_date self ∧
  location_data (Manager.store_times date_obj timings ps self).2 = location_data self ∧
  timezone (Manager.store_times date_obj timings ps self).2 = timezone self.
Proof. by rewrite (store_times_frame date_obj timings ps self self eq_refl). Qed.

(** [update] after a fetch that gave data, in one piece. *)
Lemma update_run (env : Env) (data : ApiData) (self : PrayerTimesManager) :
  fetch_prayer_times env = Some data →
  Manager.update env self =
  let self0 := set_prayer_times (λ _, ∅) (set_timezone (refreshed_timezone env self) self) in
  let run := Manager.store_times (clock env (refreshed_timezone env self))
               (timings data) PRAYERS self0 in
  match run.1 with
  | inl e => (inl e, run.2)
  | inr _ => (inr true,
              set_location_data (get_location env) (set_hijri_date (hijri_label data) run.2))
  end.
Proof.
  intros Hfetch. unfold Manager.update, refreshed_timezone, hijri_label. rewrite Hfetch.
  unfold mbind, M_bind, mret, M_ret, modify, reads. cbv zeta.
  destruct (config_timezone env) as [n|]; cbn [fst snd timezone set_timezone].
  - by destruct (Manager.store_times _ _ _ _) as [[e|[]] s1].
  - replace (set_timezone (timezone self) self) with self by (by destruct self).
    by destruct (Manager.store_times _ _ _ _) as [[e|[]] s1].
Qed.

Lemma update_timezone (env : Env) (data : ApiData) (self : PrayerTimesManager) :
  fetch_prayer_times env = Some data →
  timezone (Manager.update env self).2 = refreshed_timezone env self.
Proof.
  intros Hfetch. rewrite (update_run env data self Hfetch). cbv zeta.
  match goal with |- context [Manager.store_times ?d ?t ?ps ?s] =>
    pose proof (store_times_fields d t ps s) as (_ & _ & Hz);
    destruct (Manager.store_times d t ps s) as [[e|[]] s1]
  end; cbn in *; by rewrite Hz.
Qed.




(** X3. When the first prayer, in the order Fajr, Dhuhr, Asr, Maghrib,
    Isha, whose string has no word (empty or blank) is [p], [update] ends
    in [IndexError]; it leaves the old Hijri label and location beside a
    new map that holds only the prayers before [p] whose strings parse:
    [p] and every prayer after it are absent, however good their
    strings. *)
Theorem update_blank_string (env : Env) (data : ApiData) (self : PrayerTimesManager)
    (pre post : list string) (p raw : string) :
  fetch_prayer_times env = Some data →
  PRAYERS = (pre ++ p :: post)%list →
  timings data !! p = Some raw → split_ws raw = [] →
  (∀ q r, q ∈ pre → timings data !! q = Some r → split_ws r ≠ []) →
  ∃ self', Manager.update env self = (inl IndexError, self') ∧
    hijri_date self' = hijri_date self ∧
    location_data self' = location_data self ∧
    ∀ q, prayer_times self' !! q =
         if decide (q ∈ pre)
         then stored_time (clock env (refreshed_timezone env self)) (timings data) q
         else None.
Proof.
  intros Hfetch HP Hp Hraw Hpre. rewrite (update_run env data self Hfetch). cbv zeta.
  set (self0 := set_prayer_times (λ _, ∅) (set_timezone (refreshed_timezone env self) self)).
  set (d := clock env (refreshed_timezone env self)).
  destruct (store_times_tolerant d (timings data) pre self0 Hpre)
    as (s1 & Hrun & Hh & Hl & Hz & Hlk).
  assert (Manager.store_times d (timings data) PRAYERS self0 = (inl IndexError, s1)) as ->.
  { rewrite HP, store_times_app. unfold mbind, M_bind. rewrite Hrun.
    cbn [Manager.store_times]. unfold mbind, M_bind.
    by rewrite store_time_run, Hp, Hraw. }
  exists s1. cbn [fst snd]. split; [done |]. rewrite Hh, Hl. subst self0. cbn.
  repeat split.
  intros q. rewrite Hlk. cbn. rewrite lookup_empty.
  destruct (decide (q ∈ pre)); [| done]. by destruct (stored_time _ _ _).
Qed.

Lemma update_blank_string_witness :
  ∃ self', Manager.update (env_with timings_blank_asr) manager0 = (inl IndexError, self') ∧
    hijri_date self' = hijri_date manager0 ∧
    location_data self' = location_data manager0 ∧
    ∀ q, prayer_times self' !! q =
         if decide (q ∈ ["Fajr"; "Dhuhr"])
         then stored_time (clock (env_with timings_blank_asr)
                             (refreshed_timezone (env_with timings_blank_asr) manager0))
                timings_blank_asr q
         else None.
Proof.
  apply (update_blank_string (env_with timings_blank_asr)
           (mkApiData timings_blank_asr "24" "Dhu al-Qadah" "1445") manager0
           ["Fajr"; "Dhuhr"] ["Maghrib"; "Isha"] "Asr" "").
  - reflexivity.
  - reflexivity.
  - reflexivity.
  - reflexivity.
  - intros q r Hq.
    repeat (apply elem_of_cons in Hq as [-> | Hq]); [.. | by apply elem_of_nil in Hq];
      intros [= <-]; discriminate.
Defined.

(** X4. Refreshing twice from the same answers and clock is the same as
    refreshing once: the second [update] returns (or raises) what the
    first did and leaves the manager the first left. *)
Theorem update_idempotent (env : Env) (self : PrayerTimesManager) :
  Manager.update env (Manager.update env self).2 = Manager.update env self.
Proof.
  destruct (fetch_prayer_times env) as [data|] eqn:Hfetch.
  - assert (refreshed_timezone env (Manager.update env self).2 = refreshed_timezone env self)
      as Htz.
    { unfold refreshed_timezone at 1. rewrite (update_timezone env data self Hfetch).
      unfold refreshed_timezone. by destruct (config_timezone env). }
    rewrite (update_run env data (Manager.update env self).2 Hfetch). cbv zeta.
    rewrite Htz.
    rewrite (store_times_frame _ _ _
               (set_prayer_times (λ _, ∅) (set_timezone (refreshed_timezone env self) self))
               (set_prayer_times (λ _, ∅)
                  (set_timezone (refreshed_timezone env self) (Manager.update env self).2))
               eq_refl).
    cbn [fst snd].
    rewrite (update_run env data self Hfetch). cbv zeta.
    match goal with |- context [Manager.store_times ?d ?t ?ps ?s] =>
      pose proof (store_times_fields d t ps s) as (Hh & Hl & Hz);
      destruct (Manager.store_times d t ps s) as [[e|[]] s1]
    end; cbn in Hh, Hl, Hz; cbn [fst snd]; f_equal; apply manager_eq; cbn; congruence.
  - unfold Manager.update. by rewrite Hfetch.
Qed.

(** ** update: the strings it reads *)

Lemma append_cons (a : ascii) (s t : string) : String a s +:+ t = String a (s +:+ t).
Proof. reflexivity. Qed.

Lemma append_snoc (cur s : string) (c : ascii) :
  (cur +:+ String c "") +:+ s = cur +:+ String c s.
Proof.
  induction cur as [|a cur IH]; [done |]. by rewrite !append_cons, IH.
Qed.

Lemma append_empty_r (s : string) : s +:+ "" = s.
Proof. induction s as [|a s IH]; [done |]. by rewrite append_cons, IH. Qed.

Lemma split_ws_from_word (cur w rest : string) :
  no_space w = true →
  split_ws_from cur (w +:+ rest) = split_ws_from (cur +:+ w) rest.
Proof.
  revert cur. induction w as [|c w IH]; intros cur Hw.
  - by rewrite append_empty_r.
  - simpl in Hw. apply andb_true_iff in Hw as [Hc Hw].
    apply negb_true_iff in Hc. rewrite append_cons. simpl.
    rewrite Hc, IH by done. by rewrite append_snoc.
Qed.

Lemma split_ws_first_word (w rest : string) (c : ascii) :
  no_space w = true → w ≠ "" → isspace c = true →
  split_ws w = [w] ∧ split_ws (w +:+ String c rest) = w :: split_ws rest.
Proof.
  intros Hw Hne Hc. unfold split_ws. split.
  - rewrite <- (append_empty_r w) at 1. rewrite split_ws_from_word by done.
    cbn. by destruct w.
  - rewrite split_ws_from_word by done. cbn. rewrite Hc. by destruct w.
Qed.

(** X5. Only the first word of a prayer's string counts: for a string
    that starts with a word and goes on with whitespace and anything at
    all (the zone qualifier the service may append), the loop of [update]
    stores what it stores for the word alone. *)
Theorem stored_time_first_word (date_obj : Z) (timings : gmap string string)
    (p w rest : string) (c : ascii) :
  no_space w = true → w ≠ "" → isspace c = true →
  stored_time date_obj (<[p := w +:+ String c rest]> timings) p
  = stored_time date_obj (<[p := w]> timings) p
  ∧ ∀ self,
      Manager.store_time date_obj (<[p := w +:+ String c rest]> timings) p self
      = Manager.store_time date_obj (<[p := w]> timings) p self.
Proof.
  intros Hw Hne Hc.
  destruct (split_ws_first_word w rest c Hw Hne Hc) as [H1 H2].
  split.
  - unfold stored_time. rewrite !lookup_insert_eq. cbn [mbind option_bind].
    by rewrite H1, H2.
  - intros self. rewrite !store_time_run, !lookup_insert_eq. by rewrite H1, H2.
Qed.

Lemma stored_time_first_word_witness :
  stored_time (at0 0 5 0 123456) (<["Fajr" := "05:12" +:+ String " " "(EEST)"]> timings0) "Fajr"
  = stored_time (at0 0 5 0 123456) (<["Fajr" := "05:12"]> timings0) "Fajr"
  ∧ ∀ self,
      Manager.store_time (at0 0 5 0 123456)
        (<["Fajr" := "05:12" +:+ String " " "(EEST)"]> timings0) "Fajr" self
      = Manager.store_time (at0 0 5 0 123456) (<["Fajr" := "05:12"]> timings0) "Fajr" self.
Proof.
  apply (stored_time_first_word (at0 0 5 0 123456) timings0 "Fajr" "05:12" "(EEST)" " ").
  - reflexivity.
  - discriminate.
  - reflexivity.
Defined.

Lemma update_entry_stored (env : Env) (data : ApiData) (self : PrayerTimesManager)
    (q : string) (t : Z) :
  fetch_prayer_times env = Some data →
  prayer_times (Manager.update env self).2 !! q = Some t →
  q ∈ PRAYERS ∧
  stored_time (clock env (timezone (Manager.update env self).2)) (timings data) q = Some t.
Proof.
  intros Hfetch. rewrite (update_timezone env data self Hfetch).
  rewrite (update_run env data self Hfetch). cbv zeta.
  match goal with |- context [Manager.store_times ?d ?tm ?ps ?s] =>
    pose proof (store_times_entries d tm ps s q t) as Hent;
    destruct (Manager.store_times d tm ps s) as [[e|[]] s1]
  end; cbn in *; intros Hq; destruct (Hent Hq) as [Hold|[Hin Hst]];
    try (by rewrite lookup_empty in Hold); done.
Qed.

(** X6. Every time a refresh has stored reads back from its own display
    text: [strftime('%H:%M')] of the stored time, parsed and placed on
    the day of the refresh as [update] does, is the stored time again. *)
Theorem update_time_reads_back (env : Env) (data : ApiData) (self : PrayerTimesManager)
    (q : string) (t : Z) :
  fetch_prayer_times env = Some data →
  prayer_times (Manager.update env self).2 !! q = Some t →
  parse_time (clock env (timezone (Manager.update env self).2)) (strftime_HM t) = Some t.
Proof.
  intros Hfetch Hq.
  destruct (update_entry_stored env data self q t Hfetch Hq) as [_ Hst].
  destruct (stored_time_some _ _ _ _ Hst) as (_ & h & m & Hh & Hm & ->).
  set (D := dt_date (clock env (timezone (Manager.update env self).2))).
  destruct (mk_datetime_fields D h m Hh Hm) as (_ & Hhour & Hmin & _).
  unfold strftime_HM. rewrite Hhour, Hmin.
  destruct (parse_fmt_hm h m) as [Hparse _]; [lia | lia |].
  unfold parse_time, replace_hm. rewrite Hparse. fold D.
  replace ((0 <=? h) && (h <=? 23) && (0 <=? m) && (m <=? 59)) with true; [done |].
  symmetry. rewrite !andb_true_iff, !Z.leb_le. lia.
Qed.

Lemma update_time_reads_back_witness :
  parse_time (clock (env_with timings_bad_asr)
                (timezone (Manager.update (env_with timings_bad_asr) manager0).2))
    (strftime_HM (at0 18 20 0 0))
  = Some (at0 18 20 0 0).
Proof.
  apply (update_time_reads_back (env_with timings_bad_asr)
           (mkApiData timings_bad_asr "24" "Dhu al-Qadah" "1445") manager0 "Maghrib").
  - reflexivity.
  - reflexivity.
Defined.

(** ** The countdown and the progress window *)

Lemma first_after_none_inv (times : gmap string Z) (now : Z) (ps : list string) :
  Manager.first_after times now ps = None →
  ∀ q u, q ∈ ps → times !! q = Some u → u ≤ now.
Proof.
  induction ps as [|p ps IH]; simpl; intros Hnone q u Hq Hu.
  - by apply elem_of_nil in Hq.
  - destruct (times !! p) as [v|] eqn:Hp.
    + destruct (Z.ltb_spec now v); [done |].
      apply elem_of_cons in Hq as [-> | Hq]; [| by eapply IH].
      rewrite Hp in Hu. injection Hu as <-. done.
    + apply elem_of_cons in Hq as [-> | Hq]; [congruence | by eapply IH].
Qed.

Lemma same_date_close (a b : Z) : dt_date a = dt_date b → - US_PER_DAY < a - b < US_PER_DAY.
Proof.
  unfold dt_date, US_PER_DAY, US_PER_SECOND. intros H.
  Z.div_mod_to_equations. lia.
Qed.

(** X7. With a schedule whose times are all on the day of [now], the
    instant [get_next_prayer] returns is after [now] and at most 24 hours
    away, and the countdown [get_time_remaining] gives for it is the
    exact decomposition of the wait.  The one exception is a wait of
    exactly 24 hours, which happens only when [now] is the stored Fajr
    instant itself and nothing later is stored: the countdown then shows
    (0, 0, 0). *)
Theorem countdown_to_next_prayer (self : PrayerTimesManager) (now : Z) (p : string) (t : Z) :
  (∀ q u, q ∈ PRAYERS → prayer_times self !! q = Some u → dt_date u = dt_date now) →
  Manager.get_next_prayer now self = (inr (Some (p, t)), self) →
  0 < t - now ∧ t - now ≤ US_PER_DAY
  ∧ (t - now < US_PER_DAY →
     Manager.get_time_remaining now t self = (inr (hms_of_duration (t - now)), self))
  ∧ (t - now = US_PER_DAY →
     p = "Fajr" ∧ prayer_times self !! "Fajr" = Some now ∧
     Manager.get_time_remaining now t self = (inr (0, 0, 0), self)).
Proof.
  intros Htoday. rewrite get_next_prayer_run. intros Hnext.
  assert (0 < t - now ∧ t - now ≤ US_PER_DAY ∧
          (t - now = US_PER_DAY → p = "Fajr" ∧ prayer_times self !! "Fajr" = Some now))
    as (Hpos & Hle & Hday).
  { destruct (Manager.first_after (prayer_times self) now PRAYERS) as [[p' t']|] eqn:Hscan.
    - injection Hnext as -> ->.
      destruct (first_after_sound _ _ _ _ _ Hscan) as (Hin & Hp & Ht).
      pose proof (same_date_close t now (Htoday p t Hin Hp)). lia.
    - destruct (prayer_times self !! "Fajr") as [f|] eqn:HF; [| done].
      injection Hnext as <- <-.
      assert (f ≤ now) by (eapply (first_after_none_inv _ _ _ Hscan "Fajr"); [left | done]).
      pose proof (same_date_close f now (Htoday "Fajr" f ltac:(left) HF)).
      unfold timedelta_days. repeat split; try lia.
      intros. f_equal. lia. }
  split; [done |]. split; [done |]. split.
  - intros Hlt. rewrite get_time_remaining_run.
    destruct (Z.ltb_spec t now); [lia |]. rewrite Z.mod_small; [done | lia].
  - intros Heq. destruct (Hday Heq) as [-> HF]. split; [done |]. split; [done |].
    rewrite get_time_remaining_run.
    destruct (Z.ltb_spec t now); [lia |]. by rewrite Heq.
Qed.

Lemma countdown_to_next_prayer_witness :
  0 < at0 15 45 0 0 - at0 14 0 0 0 ∧ at0 15 45 0 0 - at0 14 0 0 0 ≤ US_PER_DAY
  ∧ (at0 15 45 0 0 - at0 14 0 0 0 < US_PER_DAY →
     Manager.get_time_remaining (at0 14 0 0 0) (at0 15 45 0 0) manager0
     = (inr (hms_of_duration (at0 15 45 0 0 - at0 14 0 0 0)), manager0))
  ∧ (at0 15 45 0 0 - at0 14 0 0 0 = US_PER_DAY →
     "Asr" = "Fajr" ∧ prayer_times manager0 !! "Fajr" = Some (at0 14 0 0 0) ∧
     Manager.get_time_remaining (at0 14 0 0 0) (at0 15 45 0 0) manager0
     = (inr (0, 0, 0), manager0)).
Proof.
  apply (countdown_to_next_prayer manager0 (at0 14 0 0 0) "Asr" (at0 15 45 0 0)).
  - intros q u Hq.
    repeat (apply elem_of_cons in Hq as [-> | Hq]); [.. | by apply elem_of_nil in Hq];
      intros [= <-]; reflexivity.
  - reflexivity.
Defined.

Lemma last_before_sound (times : gmap string Z) (now : Z) (ps : list string) (t : Z) :
  Display.last_before times now ps = Some t → t < now.
Proof.
  induction ps as [|p ps IH]; simpl; [done |].
  destruct (times !! p) as [u|]; [| done].
  destruct (Z.ltb_spec u now); [| done]. by intros [= <-].
Qed.

Lemma prev_prayer_time_le (times : gmap string Z) (now : Z) :
  Display.prev_prayer_time times now ≤ now.
Proof.
  unfold Display.prev_prayer_time.
  destruct (Display.last_before _ _ _) as [t|] eqn:H.
  - apply last_before_sound in H. lia.
  - unfold replace_hms0, mk_datetime, dt_date, dt_microsecond,
      US_PER_DAY, US_PER_HOUR, US_PER_MINUTE, US_PER_SECOND.
    Z.div_mod_to_equations. lia.
Qed.

Lemma total_seconds_le (a b : Z) : a ≤ b → (total_seconds a <= total_seconds b)%Q.
Proof. intros H. unfold total_seconds, Qle. simpl. lia. Qed.

Lemma total_seconds_pos (a : Z) : 0 < a → (0 < total_seconds a)%Q.
Proof. intros H. unfold total_seconds, Qlt. simpl. lia. Qed.

Lemma clamp01_id (x : Q) : (0 <= x)%Q → (x <= 1)%Q → clamp01 x = x.
Proof.
  intros H0 H1. unfold clamp01.
  destruct (Qltb x 0) eqn:E0.
  - apply Qltb_lt in E0. exfalso. by apply (Qlt_not_le x 0).
  - destruct (Qltb 1 x) eqn:E1; [| done].
    apply Qltb_lt in E1. exfalso. by apply (Qlt_not_le 1 x).
Qed.

Lemma clamp01_mono (x y : Q) : (x <= y)%Q → (clamp01 x <= clamp01 y)%Q.
Proof.
  intros Hxy. unfold clamp01.
  destruct (Qltb x 0) eqn:Ex0, (Qltb y 0) eqn:Ey0;
    destruct (Qltb 1 x) eqn:Ex1; destruct (Qltb 1 y) eqn:Ey1;
    try apply Qle_refl; try done;
    repeat match goal with
           | H : Qltb _ _ = true |- _ => apply Qltb_lt in H
           | H : Qltb ?a ?b = false |- _ =>
               assert (b <= a)%Q by (apply Qnot_lt_le; intros Hc; apply Qltb_lt in Hc; congruence);
               clear H
           end;
    try done;
    try (exfalso; eapply Qlt_irrefl; eauto using Qlt_le_trans, Qle_lt_trans, Qlt_trans).
Qed.

Lemma progress_unclamped (self : PrayerTimesManager) (now t : Z) :
  now < t →
  Display.prev_prayer_time (prayer_times self) now ≤ now
  ∧ ∃ f, Display.progress now t self = (inr f, self) ∧
         (f == total_seconds (now - Display.prev_prayer_time (prayer_times self) now)
               / total_seconds (t - Display.prev_prayer_time (prayer_times self) now))%Q ∧
         (0 <= f)%Q ∧ (f < 1)%Q.
Proof.
  intros Hlt. pose proof (prev_prayer_time_le (prayer_times self) now) as Hprev.
  split; [done |]. eexists. split; [apply progress_run |]. cbv zeta.
  set (prev := Display.prev_prayer_time (prayer_times self) now) in *.
  destruct (Z.ltb_spec 0 (t - prev)); [| lia].
  set (x := (total_seconds (now - prev) / total_seconds (t - prev))%Q).
  assert (0 <= x)%Q as H0.
  { apply Qle_shift_div_l; [apply total_seconds_pos; lia |].
    rewrite Qmult_0_l. unfold total_seconds, Qle. simpl. lia. }
  assert (x < 1)%Q as H1.
  { apply Qlt_shift_div_r; [apply total_seconds_pos; lia |].
    rewrite Qmult_1_l. unfold total_seconds, Qlt. simpl. lia. }
  rewrite py_min_max_clamp, clamp01_id by (done || by apply Qlt_le_weak).
  repeat split; done.
Qed.

(** X8. For a window end after [now], the window of the progress bar
    starts at or before [now], and the fraction shown is the plain
    quotient of the elapsed time by the length of the window, at least 0
    and below 1: the clamp only acts when the end is not after [now]. *)
Theorem progress_before_the_end (self : PrayerTimesManager) (now t : Z) :
  now < t →
  Display.prev_prayer_time (prayer_times self) now ≤ now
  ∧ ∃ f, Display.progress now t self = (inr f, self) ∧
         (f == total_seconds (now - Display.prev_prayer_time (prayer_times self) now)
               / total_seconds (t - Display.prev_prayer_time (prayer_times self) now))%Q ∧
         (0 <= f)%Q ∧ (f < 1)%Q.
Proof. exact (progress_unclamped self now t). Qed.

Lemma progress_before_the_end_witness :
  Display.prev_prayer_time (prayer_times manager0) (at0 14 0 0 0) ≤ at0 14 0 0 0
  ∧ ∃ f, Display.progress (at0 14 0 0 0) (at0 15 45 0 0) manager0 = (inr f, manager0) ∧
         (f == total_seconds (at0 14 0 0 0 - Display.prev_prayer_time (prayer_times manager0) (at0 14 0 0 0))
               / total_seconds (at0 15 45 0 0 - Display.prev_prayer_time (prayer_times manager0) (at0 14 0 0 0)))%Q ∧
         (0 <= f)%Q ∧ (f < 1)%Q.
Proof. apply progress_before_the_end. reflexivity. Defined.

(** X9. While the window stays the same (same start, same end), the
    fraction of the progress bar never goes down as [now] advances. *)
Theorem progress_monotone (self : PrayerTimesManager) (now1 now2 t : Z) :
  now1 ≤ now2 →
  Display.prev_prayer_time (prayer_times self) now1
  = Display.prev_prayer_time (prayer_times self) now2 →
  ∃ f1 f2, Display.progress now1 t self = (inr f1, self) ∧
           Display.progress now2 t self = (inr f2, self) ∧ (f1 <= f2)%Q.
Proof.
  intros Hle Hprev. eexists _, _.
  split; [apply progress_run |]. split; [apply progress_run |]. cbv zeta.
  rewrite <- Hprev. set (prev := Display.prev_prayer_time (prayer_times self) now1).
  destruct (Z.ltb_spec 0 (t - prev)); [| apply Qle_refl].
  rewrite !py_min_max_clamp. apply clamp01_mono.
  unfold Qdiv. apply Qmult_le_compat_r.
  - apply total_seconds_le. lia.
  - apply Qlt_le_weak, Qinv_lt_0_compat, total_seconds_pos. lia.
Qed.

Lemma progress_monotone_witness :
  ∃ f1 f2, Display.progress (at0 14 0 0 0) (at0 15 45 0 0) manager0 = (inr f1, manager0) ∧
           Display.progress (at0 15 0 0 0) (at0 15 45 0 0) manager0 = (inr f2, manager0) ∧
           (f1 <= f2)%Q.
Proof.
  apply progress_monotone.
  - vm_compute. discriminate.
  - vm_compute. reflexivity.
Defined.

(** X10. At the very instant of a prayer, here Dhuhr in a schedule of
    five prayers with increasing times, that prayer is neither the next
    one nor the start of the window: [get_next_prayer] returns Asr and
    the progress window starts at Fajr, so the bar shows the fraction
    (Dhuhr - Fajr) / (Asr - Fajr). *)
Theorem window_at_the_instant_of_dhuhr (self : PrayerTimesManager) (tF tD tA tM tI : Z) :
  prayer_times self !! "Fajr" = Some tF →
  prayer_times self !! "Dhuhr" = Some tD →
  prayer_times self !! "Asr" = Some tA →
  prayer_times self !! "Maghrib" = Some tM →
  prayer_times self !! "Isha" = Some tI →
  tF < tD ∧ tD < tA ∧ tA < tM ∧ tM < tI →
  Manager.get_next_prayer tD self = (inr (Some ("Asr", tA)), self)
  ∧ Display.prev_prayer_time (prayer_times self) tD = tF
  ∧ ∃ f, Display.update_progress tD tD self = (inr (Some f), self) ∧
         (f == total_seconds (tD - tF) / total_seconds (tA - tF))%Q.
Proof.
  intros HF HD HA HM HI (H1 & H2 & H3 & H4).
  assert (Manager.first_after (prayer_times self) tD PRAYERS = Some ("Asr", tA)) as Hscan.
  { unfold PRAYERS. simpl. rewrite HF, HD, HA.
    destruct (Z.ltb_spec tD tF); [lia |]. destruct (Z.ltb_spec tD tD); [lia |].
    destruct (Z.ltb_spec tD tA); [done | lia]. }
  assert (Display.prev_prayer_time (prayer_times self) tD = tF) as Hprev.
  { unfold Display.prev_prayer_time. simpl. rewrite HI, HM, HA, HD, HF.
    destruct (Z.ltb_spec tI tD); [lia |]. destruct (Z.ltb_spec tM tD); [lia |].
    destruct (Z.ltb_spec tA tD); [lia |]. destruct (Z.ltb_spec tD tD); [lia |].
    destruct (Z.ltb_spec tF tD); [done | lia]. }
  split; [by rewrite get_next_prayer_run, Hscan |]. split; [done |].
  destruct (progress_unclamped self tD tA ltac:(lia)) as (_ & f & Hf & Heq & _).
  exists f. split.
  - unfold Display.update_progress, mbind, M_bind, mret, M_ret.
    by rewrite get_next_prayer_run, Hscan, Hf.
  - by rewrite <- Hprev.
Qed.

Lemma window_at_the_instant_of_dhuhr_witness :
  Manager.get_next_prayer (at0 12 30 0 0) manager0
  = (inr (Some ("Asr", at0 15 45 0 0)), manager0)
  ∧ Display.prev_prayer_time (prayer_times manager0) (at0 12 30 0 0) = at0 5 12 0 0
  ∧ ∃ f, Display.update_progress (at0 12 30 0 0) (at0 12 30 0 0) manager0
         = (inr (Some f), manager0) ∧
         (f == total_seconds (at0 12 30 0 0 - at0 5 12 0 0)
               / total_seconds (at0 15 45 0 0 - at0 5 12 0 0))%Q.
Proof.
  apply (window_at_the_instant_of_dhuhr manager0
           (at0 5 12 0 0) (at0 12 30 0 0) (at0 15 45 0 0) (at0 18 20 0 0) (at0 19 50 0 0));
    try reflexivity.
  repeat split; reflexivity.
Defined.

(** ** The prayer list *)

(** The row [update_prayer_list] builds for a stored prayer. *)
Lemma prayer_rows_run (now : Z) (now_at : string → Z) (ps : list string)
    (self : PrayerTimesManager) :
  Window.prayer_rows now now_at ps self =
  (inr (omap (λ p,
          t ← prayer_times self !! p ;
          Some (Window.mkRow p (t <? now) (strftime_HM t)
                  (if t <? now then Window.Completed
                   else let hms := if t <? now_at p then (0, 0, 0)
                                   else hms_of_duration ((t - now_at p) mod US_PER_DAY) in
                        Window.Remaining hms.1.1 hms.1.2))) ps), self).
Proof.
  induction ps as [|p ps IH]; [done |].
  cbn [Window.prayer_rows omap list_omap]. unfold mbind at 1, M_bind at 1, reads at 1.
  destruct (prayer_times self !! p) as [t|] eqn:Hp; cbn [mbind option_bind].
  - unfold mbind, M_bind, mret, M_ret in *.
    destruct (t <? now).
    + by rewrite IH.
    + rewrite get_time_remaining_run, IH. by destruct (t <? now_at p).
  - by rewrite IH.
Qed.

(** X11. [update_prayer_list] leaves the manager alone and builds one row
    for each of the five prayers that is stored, in the order Fajr,
    Dhuhr, Asr, Maghrib, Isha, and none for a prayer that is not stored;
    the row shows the stored time as ["HH:MM"] and is marked completed
    exactly when that time is before [now]. *)
Theorem update_prayer_list_rows (now : Z) (now_at : string → Z) (self : PrayerTimesManager) :
  ∃ rows, Window.update_prayer_list now now_at self = (inr rows, self) ∧
    Window.row_prayer <$> rows
    = filter (λ p, is_Some (prayer_times self !! p)) PRAYERS ∧
    ∀ r, r ∈ rows →
      ∃ t, prayer_times self !! Window.row_prayer r = Some t ∧
           Window.row_time r = strftime_HM t ∧
           Window.row_completed r = (t <? now) ∧
           (Window.row_status_shown r = Window.Completed ↔ t < now).
Proof.
  unfold Window.update_prayer_list. rewrite prayer_rows_run.
  eexists. split; [reflexivity |]. split.
  - generalize PRAYERS. intros ps. induction ps as [|p ps IH]; [done |].
    cbn [omap list_omap]. rewrite filter_cons.
    destruct (prayer_times self !! p) as [t|] eqn:Hp; cbn [mbind option_bind].
    + rewrite decide_True by (by eexists). rewrite fmap_cons. cbn [Window.row_prayer].
      f_equal. exact IH.
    + rewrite decide_False by (by intros [? [=]]). done.
  - intros r (p & _ & Hr)%list_elem_of_omap.
    destruct (prayer_times self !! p) as [t|] eqn:Hp; [| done].
    cbn in Hr. injection Hr as <-. cbn. exists t. repeat split; try done.
    + destruct (Z.ltb_spec t now); [done | discriminate].
    + intros H. by destruct (Z.ltb_spec t now); [| lia].
Qed.

Lemma rows_all_pending (now : Z) (now_at : string → Z) (times : gmap string Z)
    (lo : Z) (ps : list string) :
  now ≤ lo → nondecreasing_from times (Some lo) ps = true →
  ∀ p t, p ∈ ps → times !! p = Some t → (t <? now) = false.
Proof.
  revert lo. induction ps as [|q ps IH]; intros lo Hlo Hs p t Hin Hp.
  - by apply elem_of_nil in Hin.
  - cbn in Hs. destruct (times !! q) as [u|] eqn:Hq.
    + apply andb_true_iff in Hs as [Hle Hs]. apply Z.leb_le in Hle.
      apply elem_of_cons in Hin as [-> | Hin].
      * rewrite Hq in Hp. injection Hp as <-. apply Z.ltb_ge. lia.
      * apply (IH u ltac:(lia) Hs p t Hin Hp).
    + apply elem_of_cons in Hin as [-> | Hin]; [congruence |].
      apply (IH lo Hlo Hs p t Hin Hp).
Qed.

(** X12. When the stored times do not decrease along the order of the
    prayers, the rows marked completed come first: the list is a run of
    completed rows followed by a run of rows that are not. *)
Theorem update_prayer_list_completed_first (now : Z) (now_at : string → Z)
    (self : PrayerTimesManager) :
  nondecreasing_from (prayer_times self) None PRAYERS = true →
  ∃ done_rows pending_rows,
    Window.update_prayer_list now now_at self = (inr (done_rows ++ pending_rows)%list, self) ∧
    Forall (λ r, Window.row_completed r = true) done_rows ∧
    Forall (λ r, Window.row_completed r = false) pending_rows.
Proof.
  unfold Window.update_prayer_list. rewrite prayer_rows_run.
  match goal with |- context [omap ?g PRAYERS] => set (f := g) end.
  assert (∀ p, f p = None ∨
               ∃ t r, prayer_times self !! p = Some t ∧ f p = Some r ∧
                      Window.row_completed r = (t <? now)) as Hf.
  { intros p. subst f. cbv beta.
    destruct (prayer_times self !! p) as [t|]; [right | by left].
    by eexists _, _. }
  clearbody f. generalize PRAYERS (@None Z). intros ps.
  induction ps as [|p ps IH]; intros lo Hs.
  - exists [], []. by repeat split.
  - cbn in Hs. cbn [omap list_omap].
    destruct (Hf p) as [Hnone|(t & r & Hp & Hr & Hc)].
    + rewrite Hnone. destruct (prayer_times self !! p) as [t|].
      * apply andb_true_iff in Hs as [_ Hs]. by apply (IH (Some t)).
      * by apply (IH lo).
    + rewrite Hr. rewrite Hp in Hs. apply andb_true_iff in Hs as [_ Hs].
      destruct (Z.ltb_spec t now) as [Hlt|Hge].
      * destruct (IH _ Hs) as (d & pd & [= ->] & Hd & Hpd).
        exists (r :: d), pd. split; [done |]. split; [| done]. by constructor.
      * exists [], (r :: omap f ps). split; [done |]. split; [done |].
        constructor; [done |].
        apply Forall_forall. intros r' (q & Hq & Hr')%list_elem_of_omap.
        destruct (Hf q) as [Hnone|(u & r2 & Hu & Hr2 & Hc2)]; [congruence |].
        assert (r2 = r') as <- by congruence. rewrite Hc2.
        apply (rows_all_pending now now_at (prayer_times self) t ps Hge Hs q u Hq Hu).
Qed.

Lemma update_prayer_list_completed_first_witness :
  ∃ done_rows pending_rows,
    Window.update_prayer_list (at0 14 0 0 0) (λ _, at0 14 0 0 1) manager0
    = (inr (done_rows ++ pending_rows)%list, manager0) ∧
    Forall (λ r, Window.row_completed r = true) done_rows ∧
    Forall (λ r, Window.row_completed r = false) pending_rows.
Proof. apply update_prayer_list_completed_first. reflexivity. Defined.

(** ** The prayer-time check *)

Lemma first_due_spec (now_at : string → Z) (last : option string) (ps : list string)
    (self : PrayerTimesManager) :
  ∃ played, Window.first_due now_at last ps self = (inr played, self) ∧
    (∀ p, played = Some p →
       p ∈ ps ∧ Some p ≠ last ∧
       ∃ t, prayer_times self !! p = Some t ∧ Z.abs (now_at p - t) < 60 * US_PER_SECOND) ∧
    (played = None →
       ∀ p t, p ∈ ps → prayer_times self !! p = Some t →
              Z.abs (now_at p - t) < 60 * US_PER_SECOND → Some p = last).
Proof.
  induction ps as [|q ps IH].
  - exists None. split; [done |]. split; [done |].
    intros _ p t Hin. by apply elem_of_nil in Hin.
  - cbn [Window.first_due]. unfold mbind, M_bind. rewrite is_prayer_time_run.
    destruct IH as (played & Hrun & Hsome & Hnone).
    destruct (prayer_times self !! q) as [u|] eqn:Hq.
    + destruct (Z.ltb_spec (Z.abs (now_at q - u)) (60 * US_PER_SECOND)) as [Hdue|Hnot].
      * destruct (decide (Some q = last)) as [Heq|Hne].
        -- rewrite bool_decide_eq_true_2 by done. cbn [andb negb].
           exists played. split; [done |]. split.
           ++ intros p Hp. destruct (Hsome p Hp) as (? & ? & ?). split; [by right | done].
           ++ intros Hn p t [-> | Hin]%elem_of_cons Hp Hd; [done |].
              by apply (Hnone Hn p t).
        -- rewrite bool_decide_eq_false_2 by done. cbn [andb negb].
           exists (Some q). split; [done |]. split; [| done].
           intros p [= <-]. split; [left |]. split; [done |]. by exists u.
      * cbn [andb]. exists played. split; [done |]. split.
        -- intros p Hp. destruct (Hsome p Hp) as (? & ? & ?). split; [by right | done].
        -- intros Hn p t [-> | Hin]%elem_of_cons Hp Hd.
           ++ rewrite Hq in Hp. injection Hp as <-. lia.
           ++ by apply (Hnone Hn p t).
    + cbn [andb]. exists played. split; [done |]. split.
      * intros p Hp. destruct (Hsome p Hp) as (? & ? & ?). split; [by right | done].
      * intros Hn p t [-> | Hin]%elem_of_cons Hp Hd; [congruence |].
        by apply (Hnone Hn p t).
Qed.

Lemma check_prayer_time_spec (now_at : string → Z) (last : option string)
    (self : PrayerTimesManager) :
  ∃ played last', Window.check_prayer_time now_at last self = (inr (played, last'), self) ∧
    (played = None → last' = last) ∧
    (∀ p, played = Some p →
       last' = Some p ∧ Some p ≠ last ∧ p ∈ PRAYERS ∧
       ∃ t, prayer_times self !! p = Some t ∧ Z.abs (now_at p - t) < 60 * US_PER_SECOND) ∧
    (played = None →
       ∀ p t, p ∈ PRAYERS → prayer_times self !! p = Some t →
              Z.abs (now_at p - t) < 60 * US_PER_SECOND → Some p = last).
Proof.
  unfold Window.check_prayer_time, mbind, M_bind, reads, mret, M_ret.
  destruct (decide (prayer_times self = ∅)) as [Hempty|Hne].
  - rewrite bool_decide_eq_true_2 by done. exists None, last.
    split; [done |]. split; [done |]. split; [done |].
    intros _ p t _ Hp. by rewrite Hempty, lookup_empty in Hp.
  - rewrite bool_decide_eq_false_2 by done.
    destruct (first_due_spec now_at last PRAYERS self) as (played & -> & Hsome & Hnone).
    destruct played as [p|].
    + exists (Some p), (Some p). split; [done |]. split; [done |]. split; [| done].
      intros p' [= <-]. destruct (Hsome p eq_refl) as (? & ? & ?). done.
    + exists None, last. split; [done |]. split; [done |]. split; [done |]. done.
Qed.

(** X13. [check_prayer_time] never raises and leaves the schedule alone.
    When it announces a prayer (adhan and notification), that prayer is
    one of the five, is stored with a time less than 60 seconds from the
    clock reading taken for it, differs from [last_played_prayer], and
    becomes the new [last_played_prayer]; when it announces none,
    [last_played_prayer] keeps its value, and every stored prayer that is
    within 60 seconds of its time is the one played last. *)
Theorem check_prayer_time_announces (now_at : string → Z) (last : option string)
    (self : PrayerTimesManager) :
  ∃ played last', Window.check_prayer_time now_at last self = (inr (played, last'), self) ∧
    (∀ p, played = Some p →
       last' = Some p ∧ Some p ≠ last ∧ p ∈ PRAYERS ∧
       ∃ t, prayer_times self !! p = Some t ∧ Z.abs (now_at p - t) < 60 * US_PER_SECOND) ∧
    (played = None →
       last' = last ∧
       ∀ p t, p ∈ PRAYERS → prayer_times self !! p = Some t →
              Z.abs (now_at p - t) < 60 * US_PER_SECOND → Some p = last).
Proof.
  destruct (check_prayer_time_spec now_at last self) as (played & last' & Hrun & H1 & H2 & H3).
  exists played, last'. split; [done |]. split; [done |].
  intros Hn. split; [by apply H1 | by apply H3].
Qed.

(** X14. The same prayer is never announced twice in a row: after a call
    that announced [p], a call with the [last_played_prayer] it left,
    whatever the clock shows and whatever the schedule holds then, does
    not announce [p]. *)
Theorem check_prayer_time_not_twice (now_at now_at' : string → Z) (last last' : option string)
    (self self' : PrayerTimesManager) (p : string) :
  Window.check_prayer_time now_at last self = (inr (Some p, last'), self) →
  ∀ played last'',
    Window.check_prayer_time now_at' last' self' = (inr (played, last''), self') →
    played ≠ Some p.
Proof.
  intros Hfirst played last'' Hsecond.
  destruct (check_prayer_time_spec now_at last self) as (pl1 & l1 & Hrun1 & _ & Hs1 & _).
  rewrite Hfirst in Hrun1. injection Hrun1 as <- <-.
  destruct (Hs1 p eq_refl) as (Hl & _).
  destruct (check_prayer_time_spec now_at' last' self') as (pl2 & l2 & Hrun2 & _ & Hs2 & _).
  rewrite Hsecond in Hrun2. injection Hrun2 as <- <-.
  intros ->. destruct (Hs2 p eq_refl) as (_ & Hne & _). congruence.
Qed.

Lemma check_prayer_time_not_twice_witness :
  Window.check_prayer_time (λ _, at0 12 30 30 0) (Some "Fajr") manager0
  = (inr (Some "Dhuhr", Some "Dhuhr"), manager0) ∧
  Window.check_prayer_time (λ _, at0 12 30 31 0) (Some "Dhuhr") manager0
  = (inr (None, Some "Dhuhr"), manager0) ∧
  (None : option string) ≠ Some "Dhuhr".
Proof.
  split; [vm_compute; reflexivity |]. split; [vm_compute; reflexivity |].
  apply (check_prayer_time_not_twice (λ _, at0 12 30 30 0) (λ _, at0 12 30 31 0)
           (Some "Fajr") (Some "Dhuhr") manager0 manager0 "Dhuhr"
           eq_refl None (Some "Dhuhr") eq_refl).
Defined.

(** ** The countdown of the console variant *)

Lemma digit_of_digit_char (d : Z) : 0 ≤ d ≤ 9 → digit_of (digit_char d) = Some d.
Proof.
  intros Hd.
  assert (forallb (λ d, match digit_of (digit_char d) with
                        | Some d' => d' =? d
                        | None => false
                        end) (Zrange 10) = true) as Hall by (vm_compute; reflexivity).
  pose proof (Zrange_forallb _ _ Hall d ltac:(lia)) as Hc. cbv beta in Hc.
  destruct (digit_of (digit_char d)) as [d'|]; [| discriminate Hc].
  apply Z.eqb_eq in Hc. by subst.
Qed.

Lemma fmt_hm_app (h m : Z) (tail : string) :
  fmt_hm h m +:+ tail =
  String (digit_char (h / 10 mod 10)) (String (digit_char (h mod 10))
    (String ":" (String (digit_char (m / 10 mod 10)) (String (digit_char (m mod 10)) tail)))).
Proof. reflexivity. Qed.

Lemma strptime_fmt_hm (h m : Z) (tail : string) :
  0 ≤ h < 24 → 0 ≤ m < 60 →
  AdhanLive.strptime_HM (fmt_hm h m +:+ tail) =
  match tail with EmptyString => inr (h, m) | String _ _ => inl ValueError end.
Proof.
  intros Hh Hm. rewrite fmt_hm_app.
  unfold AdhanLive.strptime_HM, AdhanLive.match_H.
  rewrite !digit_of_digit_char by (Z.div_mod_to_equations; lia).
  replace (10 * (h / 10 mod 10) + h mod 10) with h by (Z.div_mod_to_equations; lia).
  destruct (Z.leb_spec h 23); [| lia].
  unfold AdhanLive.match_M.
  rewrite !digit_of_digit_char by (Z.div_mod_to_equations; lia).
  replace (10 * (m / 10 mod 10) + m mod 10) with m by (Z.div_mod_to_equations; lia).
  destruct (Z.leb_spec (m / 10 mod 10) 5); [| Z.div_mod_to_equations; lia].
  by destruct tail.
Qed.

Lemma td_seconds_small (d : Z) :
  0 ≤ d < US_PER_DAY →
  (td_seconds d / 3600, (td_seconds d mod 3600) / 60, td_seconds d mod 60)
  = hms_of_duration d.
Proof. intros Hd. unfold td_seconds, hms_of_duration. by rewrite Z.mod_small. Qed.

Lemma console_countdown (now h m : Z) :
  0 ≤ h < 24 → 0 ≤ m < 60 →
  - US_PER_DAY < mk_datetime (dt_date now) h m 0 0 - now < US_PER_DAY
  ∧ AdhanLive.get_time_until_prayer now (fmt_hm h m) =
    hms_of_duration (if mk_datetime (dt_date now) h m 0 0 <? now
                     then mk_datetime (dt_date now) h m 0 0 + US_PER_DAY - now
                     else mk_datetime (dt_date now) h m 0 0 - now).
Proof.
  intros Hh Hm. set (t := mk_datetime (dt_date now) h m 0 0).
  assert (- US_PER_DAY < t - now < US_PER_DAY) as Hclose.
  { apply same_date_close. subst t.
    by destruct (mk_datetime_fields (dt_date now) h m ltac:(lia) ltac:(lia)) as [-> _]. }
  split; [done |].
  unfold AdhanLive.get_time_until_prayer.
  rewrite <- (append_empty_r (fmt_hm h m)), strptime_fmt_hm by done. cbv zeta. fold t.
  unfold timedelta_days. rewrite Z.mul_1_l.
  destruct (Z.ltb_spec t now); apply td_seconds_small; lia.
Qed.

(** X15. For a well-formed ["HH:MM"] the countdown of the console
    variant is the exact decomposition of the wait until the next time
    the clock shows HH:MM:00: today when that is not before [now],
    tomorrow otherwise; the wait is always under 24 hours. *)
Theorem get_time_until_prayer_exact (now h m : Z) :
  0 ≤ h < 24 → 0 ≤ m < 60 →
  (now ≤ mk_datetime (dt_date now) h m 0 0 →
   mk_datetime (dt_date now) h m 0 0 - now < US_PER_DAY ∧
   AdhanLive.get_time_until_prayer now (fmt_hm h m)
   = hms_of_duration (mk_datetime (dt_date now) h m 0 0 - now))
  ∧ (mk_datetime (dt_date now) h m 0 0 < now →
     0 < mk_datetime (dt_date now + 1) h m 0 0 - now < US_PER_DAY ∧
     AdhanLive.get_time_until_prayer now (fmt_hm h m)
     = hms_of_duration (mk_datetime (dt_date now + 1) h m 0 0 - now)).
Proof.
  intros Hh Hm. destruct (console_countdown now h m Hh Hm) as [Hclose ->].
  replace (mk_datetime (dt_date now + 1) h m 0 0)
    with (mk_datetime (dt_date now) h m 0 0 + US_PER_DAY) by (unfold mk_datetime; lia).
  split; intros Hcmp.
  - destruct (Z.ltb_spec (mk_datetime (dt_date now) h m 0 0) now); [lia |].
    split; [lia | done].
  - destruct (Z.ltb_spec (mk_datetime (dt_date now) h m 0 0) now); [| lia].
    split; [lia | done].
Qed.

Lemma get_time_until_prayer_exact_witness :
  (at0 14 0 0 0 ≤ mk_datetime (dt_date (at0 14 0 0 0)) 15 45 0 0 →
   mk_datetime (dt_date (at0 14 0 0 0)) 15 45 0 0 - at0 14 0 0 0 < US_PER_DAY ∧
   AdhanLive.get_time_until_prayer (at0 14 0 0 0) (fmt_hm 15 45)
   = hms_of_duration (mk_datetime (dt_date (at0 14 0 0 0)) 15 45 0 0 - at0 14 0 0 0))
  ∧ (mk_datetime (dt_date (at0 14 0 0 0)) 15 45 0 0 < at0 14 0 0 0 →
     0 < mk_datetime (dt_date (at0 14 0 0 0) + 1) 15 45 0 0 - at0 14 0 0 0 < US_PER_DAY ∧
     AdhanLive.get_time_until_prayer (at0 14 0 0 0) (fmt_hm 15 45)
     = hms_of_duration (mk_datetime (dt_date (at0 14 0 0 0) + 1) 15 45 0 0 - at0 14 0 0 0)).
Proof.
  apply get_time_until_prayer_exact; split; vm_compute; (reflexivity || discriminate).
Defined.

(** X16. A time string that goes on after ["HH:MM"], as with the zone
    qualifier the timings service may append, is refused by [strptime]:
    the console variant then shows a countdown of (0, 0, 0), at every
    instant. *)
Theorem get_time_until_prayer_qualifier (now h m : Z) (c : ascii) (rest : string) :
  0 ≤ h < 24 → 0 ≤ m < 60 →
  AdhanLive.get_time_until_prayer now (fmt_hm h m +:+ String c rest) = (0, 0, 0).
Proof.
  intros Hh Hm. unfold AdhanLive.get_time_until_prayer.
  by rewrite strptime_fmt_hm.
Qed.

Lemma get_time_until_prayer_qualifier_witness :
  AdhanLive.get_time_until_prayer (at0 3 0 0 0) (fmt_hm 5 12 +:+ String " " "(EEST)") = (0, 0, 0).
Proof.
  apply get_time_until_prayer_qualifier; split; vm_compute; (reflexivity || discriminate).
Defined.

(** X17. For a well-formed ["HH:MM"] and the time the manager stores for
    it on the day of [now]: while that time is not before [now] the two
    variants show the same countdown; once it is before [now] the manager
    shows (0, 0, 0) and the console variant counts down to the same
    clock time of the next day. *)
Theorem countdowns_agree (self : PrayerTimesManager) (now h m : Z) :
  0 ≤ h < 24 → 0 ≤ m < 60 →
  (now ≤ mk_datetime (dt_date now) h m 0 0 →
   Manager.get_time_remaining now (mk_datetime (dt_date now) h m 0 0) self
   = (inr (AdhanLive.get_time_until_prayer now (fmt_hm h m)), self))
  ∧ (mk_datetime (dt_date now) h m 0 0 < now →
     Manager.get_time_remaining now (mk_datetime (dt_date now) h m 0 0) self
     = (inr (0, 0, 0), self) ∧
     Manager.get_time_remaining now (mk_datetime (dt_date now + 1) h m 0 0) self
     = (inr (AdhanLive.get_time_until_prayer now (fmt_hm h m)), self)).
Proof.
  intros Hh Hm. destruct (console_countdown now h m Hh Hm) as [Hclose ->].
  replace (mk_datetime (dt_date now + 1) h m 0 0)
    with (mk_datetime (dt_date now) h m 0 0 + US_PER_DAY) by (unfold mk_datetime; lia).
  set (t := mk_datetime (dt_date now) h m 0 0) in *.
  rewrite !get_time_remaining_run.
  split; intros Hcmp; destruct (Z.ltb_spec t now); try lia.
  - rewrite Z.mod_small by lia. done.
  - split; [done |]. destruct (Z.ltb_spec (t + US_PER_DAY) now); [lia |].
    rewrite Z.mod_small by lia. done.
Qed.

Lemma countdowns_agree_witness :
  (at0 14 0 0 0 ≤ mk_datetime (dt_date (at0 14 0 0 0)) 15 45 0 0 →
   Manager.get_time_remaining (at0 14 0 0 0) (mk_datetime (dt_date (at0 14 0 0 0)) 15 45 0 0)
     manager0
   = (inr (AdhanLive.get_time_until_prayer (at0 14 0 0 0) (fmt_hm 15 45)), manager0))
  ∧ (mk_datetime (dt_date (at0 14 0 0 0)) 15 45 0 0 < at0 14 0 0 0 →
     Manager.get_time_remaining (at0 14 0 0 0) (mk_datetime (dt_date (at0 14 0 0 0)) 15 45 0 0)
       manager0
     = (inr (0, 0, 0), manager0) ∧
     Manager.get_time_remaining (at0 14 0 0 0)
       (mk_datetime (dt_date (at0 14 0 0 0) + 1) 15 45 0 0) manager0
     = (inr (AdhanLive.get_time_until_prayer (at0 14 0 0 0) (fmt_hm 15 45)), manager0)).
Proof.
  apply countdowns_agree; split; vm_compute; (reflexivity || discriminate).
Defined.

(** ** The next prayer of the console variant *)

Lemma console_first_after_sound (times : gmap string string) (cur : string)
    (ps : list string) (p t : string) :
  Console.first_after times cur ps = Some (p, t) →
  p ∈ ps ∧ times !! p = Some t ∧ str_gt t cur = true.
Proof.
  induction ps as [|q ps IH]; simpl; [done |].
  destruct (times !! q) as [u|] eqn:Hq.
  - destruct (str_gt u cur) eqn:Hgt.
    + intros [= <- <-]. split; [left | done].
    + intros H. destruct (IH H) as (? & ? & ?). split; [by right | done].
  - intros H. destruct (IH H) as (? & ? & ?). split; [by right | done].
Qed.

Lemma console_first_after_none (times : gmap string string) (cur : string)
    (ps : list string) :
  Console.first_after times cur ps = None →
  ∀ p t, p ∈ ps → times !! p = Some t → str_gt t cur = false.
Proof.
  induction ps as [|q ps IH]; simpl; intros Hnone p t Hin Hp.
  - by apply elem_of_nil in Hin.
  - destruct (times !! q) as [u|] eqn:Hq.
    + destruct (str_gt u cur) eqn:Hgt; [done |].
      apply elem_of_cons in Hin as [-> | Hin]; [congruence | by eapply IH].
    + apply elem_of_cons in Hin as [-> | Hin]; [congruence | by eapply IH].
Qed.

(** X18. The console variant's [get_next_prayer]: with no times it
    returns the pair of [None]s; with times but an empty list of enabled
    prayers it raises [IndexError]; otherwise it returns an enabled
    prayer, either one whose stored string is above the current
    ["HH:MM"], or, when no enabled prayer has such a string, the first
    enabled prayer with its stored string, the empty string if it has
    none. *)
Theorem console_get_next_prayer_cases (self : Console.AdhanLive) (now : Z) :
  (Console.prayer_times self = ∅ → Console.get_next_prayer self now = inr Console.NoTimes)
  ∧ (Console.prayer_times self ≠ ∅ → Console.enabled_prayers self = [] →
     Console.get_next_prayer self now = inl IndexError)
  ∧ (Console.prayer_times self ≠ ∅ → Console.enabled_prayers self ≠ [] →
     ∃ p ar t, Console.get_next_prayer self now = inr (Console.Next p ar t) ∧
       p ∈ Console.enabled_prayers self ∧
       ((Console.prayer_times self !! p = Some t ∧ str_gt t (strftime_HM now) = true)
        ∨ (head (Console.enabled_prayers self) = Some p ∧
           t = default "" (Console.prayer_times self !! p) ∧
           ∀ q u, q ∈ Console.enabled_prayers self →
                  Console.prayer_times self !! q = Some u →
                  str_gt u (strftime_HM now) = false))).
Proof.
  unfold Console.get_next_prayer. split; [| split].
  - intros ->. by rewrite bool_decide_eq_true_2.
  - intros Hne ->. by rewrite bool_decide_eq_false_2.
  - intros Hne Hen. rewrite bool_decide_eq_false_2 by done.
    destruct (Console.first_after _ _ _) as [[p t]|] eqn:Hscan.
    + destruct (console_first_after_sound _ _ _ _ _ Hscan) as (Hin & Hp & Hgt).
      eexists p, _, t. split; [done |]. split; [done |]. by left.
    + destruct (Console.enabled_prayers self) as [|p ps] eqn:Hps; [done |].
      eexists p, _, _. split; [done |]. split; [left |]. right.
      split; [done |]. split; [done |].
      apply (console_first_after_none _ _ _ Hscan).
Qed.

(** ** The web client: retries *)

Lemma fetch_loop_spec (n d : Z) (k : nat) (a : Z) (w : Api.World) :
  0 ≤ d → a + Z.of_nat k = n →
  ∃ r new w',
    Api.fetch_loop n d (seqZ a (Z.of_nat k)) w = (inr r, w') ∧
    Api.config w' = Api.config w ∧
    Api.location_replies w' = Api.location_replies w ∧
    Api.events w' = (new ++ Api.events w)%list ∧
    Api.location_requests new = 0%nat ∧
    (Api.timings_requests new ≤ k)%nat ∧
    (Api.sleeps new ≤ pred k)%nat ∧
    (∀ e, head new = Some e → Api.is_sleep e = false) ∧
    (0 < k → new ≠ [])%nat ∧
    (∀ data, r = Some data →
       ∃ j, (j < k)%nat ∧ Api.timings_replies w j = Api.Answered data ∧
            (∀ i x, (i < j)%nat → Api.timings_replies w i ≠ Api.Answered x) ∧
            Api.timings_requests new = S j ∧ (Api.sleeps new ≤ j)%nat) ∧
    (r = None →
       (∀ i x, (i < k)%nat → Api.timings_replies w i ≠ Api.Answered x) ∧
       Api.timings_requests new = k).
Proof.
  intros Hd. revert a w. induction k as [|k IH]; intros a w Hn.
  - exists None, [], w. cbn. repeat split; try done; try lia.
  - rewrite seqZ_cons by lia.
    replace (Z.pred (Z.of_nat (S k))) with (Z.of_nat k) by lia.
    cbn [Api.fetch_loop]. unfold mbind at 1, Api.IO_bind at 1, Api.request_timings at 1.
    set (w1 := Api.mkWorld (Api.config w) (Api.location_replies w)
                 (λ n0, Api.timings_replies w (S n0)) (Api.TimingsRequest :: Api.events w)).
    destruct (Api.timings_replies w 0%nat) as [| |data] eqn:H0.
    + (* Raised *)
      destruct (Z.ltb_spec a (n - 1)) as [Hlt|Hge].
      * unfold mbind at 1, Api.IO_bind at 1, Api.sleep at 1.
        destruct (Z.ltb_spec d 0); [lia |].
        set (w2 := Api.mkWorld _ _ _ _).
        destruct (IH (Z.succ a) w2 ltac:(lia))
          as (r & new & w' & Hrun & Hc & Hl & He & Hlr & Htr & Hs & Hh & Hne & Hsome & Hnone).
        exists r, (new ++ [Api.Sleep d; Api.TimingsRequest])%list, w'.
        split; [done |]. split; [done |]. split; [done |].
        split; [by rewrite He, <- app_assoc |].
        unfold Api.location_requests, Api.timings_requests, Api.sleeps in *.
        rewrite !List.filter_app, !length_app. cbn.
        assert (0 < k)%nat by lia.
        split; [lia |]. split; [lia |]. split; [lia |].
        split. { intros e. destruct new as [|e' new']; [by destruct (Hne ltac:(lia)) |]. cbn. apply Hh. }
        split. { intros _. by destruct new. }
        split.
        -- intros data' Hr. destruct (Hsome data' Hr) as (j & Hj & Hrep & Hbefore & Hcount & Hsl).
           exists (S j). split; [lia |]. split; [done |].
           split. { intros i x Hi. destruct i as [|i]; [congruence | apply (Hbefore i x); lia]. }
           split; lia.
        -- intros Hr. destruct (Hnone Hr) as [Hall Hcount]. split; [| lia].
           intros i x Hi. destruct i as [|i]; [congruence | apply (Hall i x); lia].
      * unfold mbind at 1, Api.IO_bind at 1. cbn [mret Api.IO_ret].
        assert (k = 0%nat) as -> by lia. cbn [Z.of_nat]. rewrite seqZ_nil by lia.
        cbn. exists None, [Api.TimingsRequest], w1.
        repeat split; try done; cbn; try lia.
        -- by intros e [= <-].
        -- intros i x Hi. assert (i = 0%nat) as -> by lia. congruence.
    + (* Refused *)
      destruct (IH (Z.succ a) w1 ltac:(lia))
        as (r & new & w' & Hrun & Hc & Hl & He & Hlr & Htr & Hs & Hh & Hne & Hsome & Hnone).
      exists r, (new ++ [Api.TimingsRequest])%list, w'.
      split; [done |]. split; [done |]. split; [done |].
      split; [by rewrite He, <- app_assoc |].
      unfold Api.location_requests, Api.timings_requests, Api.sleeps in *.
      rewrite !List.filter_app, !length_app. cbn.
      split; [lia |]. split; [lia |]. split; [lia |].
      split. { intros e. destruct new as [|e' new']; [by intros [= <-] | cbn; apply Hh]. }
      split. { intros _. by destruct new. }
      split.
      * intros data' Hr. destruct (Hsome data' Hr) as (j & Hj & Hrep & Hbefore & Hcount & Hsl).
        exists (S j). split; [lia |]. split; [done |].
        split. { intros i x Hi. destruct i as [|i]; [congruence | apply (Hbefore i x); lia]. }
        split; lia.
      * intros Hr. destruct (Hnone Hr) as [Hall Hcount]. split; [| lia].
        intros i x Hi. destruct i as [|i]; [congruence | apply (Hall i x); lia].
    + (* Answered *)
      exists (Some data), [Api.TimingsRequest], w1.
      repeat split; try done; cbn; try lia.
      * intros e [= <-]. done.
      * intros data' [= <-]. exists 0%nat. repeat split; try done; try lia.
Qed.

Lemma get_location_loop_spec (n d : Z) (k : nat) (a : Z) (w : Api.World) :
  0 ≤ d → a + Z.of_nat k = n →
  ∃ r new w',
    Api.get_location_loop n d (seqZ a (Z.of_nat k)) w = (inr r, w') ∧
    Api.config w' = match r with
                    | Some location => Api.set_city_country location (Api.config w)
                    | None => Api.config w
                    end ∧
    Api.timings_replies w' = Api.timings_replies w ∧
    Api.events w' = (new ++ Api.events w)%list ∧
    Api.timings_requests new = 0%nat ∧
    (Api.location_requests new ≤ k)%nat ∧
    (Api.sleeps new ≤ pred k)%nat ∧
    (∀ e, head new = Some e → Api.is_sleep e = false) ∧
    (0 < k → new ≠ [])%nat ∧
    (∀ location, r = Some location →
       ∃ j, (j < k)%nat ∧ Api.location_replies w j = Api.Answered location ∧
            (∀ i x, (i < j)%nat → Api.location_replies w i ≠ Api.Answered x) ∧
            Api.location_requests new = S j) ∧
    (r = None →
       (∀ i x, (i < k)%nat → Api.location_replies w i ≠ Api.Answered x) ∧
       Api.location_requests new = k).
Proof.
  intros Hd. revert a w. induction k as [|k IH]; intros a w Hn.
  - exists None, [], w. cbn. repeat split; try done; try lia.
  - rewrite seqZ_cons by lia.
    replace (Z.pred (Z.of_nat (S k))) with (Z.of_nat k) by lia.
    cbn [Api.get_location_loop]. unfold mbind at 1, Api.IO_bind at 1, Api.request_location at 1.
    set (w1 := Api.mkWorld (Api.config w) (λ n0, Api.location_replies w (S n0))
                 (Api.timings_replies w) (Api.LocationRequest :: Api.events w)).
    destruct (Api.location_replies w 0%nat) as [| |location] eqn:H0.
    + destruct (Z.ltb_spec a (n - 1)) as [Hlt|Hge].
      * unfold mbind at 1, Api.IO_bind at 1, Api.sleep at 1.
        destruct (Z.ltb_spec d 0); [lia |].
        set (w2 := Api.mkWorld _ _ _ _).
        destruct (IH (Z.succ a) w2 ltac:(lia))
          as (r & new & w' & Hrun & Hc & Hl & He & Htr & Hlr & Hs & Hh & Hne & Hsome & Hnone).
        exists r, (new ++ [Api.Sleep d; Api.LocationRequest])%list, w'.
        split; [done |]. split; [done |]. split; [done |].
        split; [by rewrite He, <- app_assoc |].
        unfold Api.location_requests, Api.timings_requests, Api.sleeps in *.
        rewrite !List.filter_app, !length_app. cbn.
        assert (0 < k)%nat by lia.
        split; [lia |]. split; [lia |]. split; [lia |].
        split. { intros e. destruct new as [|e' new']; [by destruct (Hne ltac:(lia)) |]. cbn. apply Hh. }
        split. { intros _. by destruct new. }
        split.
        -- intros loc Hr. destruct (Hsome loc Hr) as (j & Hj & Hrep & Hbefore & Hcount).
           exists (S j). split; [lia |]. split; [done |].
           split. { intros i x Hi. destruct i as [|i]; [congruence | apply (Hbefore i x); lia]. }
           lia.
        -- intros Hr. destruct (Hnone Hr) as [Hall Hcount]. split; [| lia].
           intros i x Hi. destruct i as [|i]; [congruence | apply (Hall i x); lia].
      * unfold mbind at 1, Api.IO_bind at 1. cbn [mret Api.IO_ret].
        assert (k = 0%nat) as -> by lia. cbn [Z.of_nat]. rewrite seqZ_nil by lia.
        cbn. exists None, [Api.LocationRequest], w1.
        repeat split; try done; cbn; try lia.
        -- by intros e [= <-].
        -- intros i x Hi. assert (i = 0%nat) as -> by lia. congruence.
    + destruct (IH (Z.succ a) w1 ltac:(lia))
        as (r & new & w' & Hrun & Hc & Hl & He & Htr & Hlr & Hs & Hh & Hne & Hsome & Hnone).
      exists r, (new ++ [Api.LocationRequest])%list, w'.
      split; [done |]. split; [done |]. split; [done |].
      split; [by rewrite He, <- app_assoc |].
      unfold Api.location_requests, Api.timings_requests, Api.sleeps in *.
      rewrite !List.filter_app, !length_app. cbn.
      split; [lia |]. split; [lia |]. split; [lia |].
      split. { intros e. destruct new as [|e' new']; [by intros [= <-] | cbn; apply Hh]. }
      split. { intros _. by destruct new. }
      split.
      * intros loc Hr. destruct (Hsome loc Hr) as (j & Hj & Hrep & Hbefore & Hcount).
        exists (S j). split; [lia |]. split; [done |].
        split. { intros i x Hi. destruct i as [|i]; [congruence | apply (Hbefore i x); lia]. }
        lia.
      * intros Hr. destruct (Hnone Hr) as [Hall Hcount]. split; [| lia].
        intros i x Hi. destruct i as [|i]; [congruence | apply (Hall i x); lia].
    + unfold mbind, Api.IO_bind, Api.set_config, mret, Api.IO_ret. cbn.
      eexists (Some location), [Api.LocationRequest], _.
      split; [reflexivity |]. cbn.
      repeat split; try done; cbn; try lia.
      * by intros e [= <-].
      * intros loc [= <-]. exists 0%nat. repeat split; try done; try lia.
Qed.

Lemma fetch_loop_all (n d : Z) (w : Api.World) :
  0 ≤ d →
  ∃ r new w',
    Api.fetch_loop n d (seqZ 0 n) w = (inr r, w') ∧
    Api.config w' = Api.config w ∧
    Api.events w' = (new ++ Api.events w)%list ∧
    Api.location_requests new = 0%nat ∧
    (Api.timings_requests new ≤ Z.to_nat n)%nat ∧
    (Api.sleeps new ≤ pred (Z.to_nat n))%nat ∧
    (∀ e, head new = Some e → Api.is_sleep e = false) ∧
    (∀ data, r = Some data →
       ∃ j, (j < Z.to_nat n)%nat ∧ Api.timings_replies w j = Api.Answered data ∧
            (∀ i x, (i < j)%nat → Api.timings_replies w i ≠ Api.Answered x) ∧
            Api.timings_requests new = S j ∧ (Api.sleeps new ≤ j)%nat) ∧
    (r = None →
       (∀ i x, (i < Z.to_nat n)%nat → Api.timings_replies w i ≠ Api.Answered x) ∧
       Api.timings_requests new = Z.to_nat n).
Proof.
  intros Hd. destruct (Z.le_gt_cases 0 n) as [Hn|Hn].
  - destruct (fetch_loop_spec n d (Z.to_nat n) 0 w Hd ltac:(lia))
      as (r & new & w' & Hrun & Hc & _ & He & Hlr & Htr & Hs & Hh & _ & Hsome & Hnone).
    rewrite Z2Nat.id in Hrun by done. by exists r, new, w'.
  - rewrite seqZ_nil by lia. exists None, [], w.
    replace (Z.to_nat n) with 0%nat by lia. cbn.
    repeat split; try done; try lia.
Qed.

Lemma get_location_all (w : Api.World) :
  0 ≤ Api.retry_delay (Api.config w) →
  ∃ r new w',
    Api.get_location w = (inr r, w') ∧
    Api.config w' = match r with
                    | Some location => Api.set_city_country location (Api.config w)
                    | None => Api.config w
                    end ∧
    Api.timings_replies w' = Api.timings_replies w ∧
    Api.events w' = (new ++ Api.events w)%list ∧
    Api.timings_requests new = 0%nat ∧
    (Api.location_requests new ≤ Z.to_nat (Api.retry_attempts (Api.config w)))%nat ∧
    (Api.sleeps new ≤ pred (Z.to_nat (Api.retry_attempts (Api.config w))))%nat ∧
    (∀ e, head new = Some e → Api.is_sleep e = false) ∧
    (∀ location, r = Some location →
       ∃ j, (j < Z.to_nat (Api.retry_attempts (Api.config w)))%nat ∧
            Api.location_replies w j = Api.Answered location ∧
            (∀ i x, (i < j)%nat → Api.location_replies w i ≠ Api.Answered x) ∧
            Api.location_requests new = S j) ∧
    (r = None →
       ∀ i x, (i < Z.to_nat (Api.retry_attempts (Api.config w)))%nat →
              Api.location_replies w i ≠ Api.Answered x).
Proof.
  intros Hd. unfold Api.get_location, mbind, Api.IO_bind, Api.get_config.
  set (n := Api.retry_attempts (Api.config w)). set (d := Api.retry_delay (Api.config w)) in *.
  destruct (Z.le_gt_cases 0 n) as [Hn|Hn].
  - destruct (get_location_loop_spec n d (Z.to_nat n) 0 w Hd ltac:(lia))
      as (r & new & w' & Hrun & Hc & Ht & He & Htr & Hlr & Hs & Hh & _ & Hsome & Hnone).
    rewrite Z2Nat.id in Hrun by done. exists r, new, w'.
    do 8 (split; [done |]). split; [done |].
    intros Hr. by apply Hnone.
  - rewrite seqZ_nil by lia. exists None, [], w.
    replace (Z.to_nat n) with 0%nat by lia. cbn.
    repeat split; try done; try lia.
Qed.

Lemma fetch_prayer_times_run (w : Api.World) :
  Api.fetch_prayer_times w =
  match Api.detect_phase w with
  | (inl e, w1) => (inl e, w1)
  | (inr _, w1) =>
      if Api.falsy (Api.latitude (Api.config w1)) || Api.falsy (Api.longitude (Api.config w1))
      then (inr None, w1)
      else Api.fetch_loop (Api.retry_attempts (Api.config w1)) (Api.retry_delay (Api.config w1))
             (seqZ 0 (Api.retry_attempts (Api.config w1))) w1
  end.
Proof.
  unfold Api.fetch_prayer_times, Api.detect_phase, mbind, Api.IO_bind, Api.get_config.
  destruct (Api.auto_detect_location (Api.config w)).
  - destruct (Api.get_location w) as [[e|[loc|]] w1]; try done.
    + unfold Api.set_config. cbn.
      by destruct (Api.falsy (Api.loc_lat loc) || Api.falsy (Api.loc_lon loc)).
    + cbn. by destruct (Api.falsy _ || Api.falsy _).
  - cbn. by destruct (Api.falsy _ || Api.falsy _).
Qed.

Lemma detect_phase_spec (w : Api.World) :
  0 ≤ Api.retry_delay (Api.config w) →
  ∃ new w1,
    Api.detect_phase w = (inr tt, w1) ∧
    Api.retry_attempts (Api.config w1) = Api.retry_attempts (Api.config w) ∧
    Api.retry_delay (Api.config w1) = Api.retry_delay (Api.config w) ∧
    Api.timings_replies w1 = Api.timings_replies w ∧
    Api.events w1 = (new ++ Api.events w)%list ∧
    Api.timings_requests new = 0%nat ∧
    (Api.location_requests new ≤ Z.to_nat (Api.retry_attempts (Api.config w)))%nat ∧
    (Api.sleeps new ≤ pred (Z.to_nat (Api.retry_attempts (Api.config w))))%nat ∧
    (∀ e, head new = Some e → Api.is_sleep e = false) ∧
    (Api.auto_detect_location (Api.config w) = false → w1 = w ∧ new = []) ∧
    (∀ location, Api.auto_detect_location (Api.config w) = true →
       (0 < Api.retry_attempts (Api.config w)) →
       Api.location_replies w 0%nat = Api.Answered location →
       Api.config w1 = Api.set_coordinates location
                         (Api.set_city_country location (Api.config w)) ∧
       Api.location_requests new = 1%nat).
Proof.
  intros Hd. unfold Api.detect_phase, mbind, Api.IO_bind, Api.get_config.
  destruct (Api.auto_detect_location (Api.config w)) eqn:Hauto.
  - destruct (get_location_all w Hd)
      as (r & new & w' & Hrun & Hc & Ht & He & Htr & Hlr & Hs & Hh & Hsome & Hnone).
    rewrite Hrun. destruct r as [loc|].
    + eexists new, _. split; [reflexivity |]. cbn. rewrite Hc. cbn.
      do 8 (split; [done |]). split; [done |].
      intros loc' _ Hn Hfirst.
      destruct (Hsome loc eq_refl) as (j & Hj & Hrep & Hbefore & Hcount).
      destruct j as [|j]; [| by destruct (Hbefore 0%nat loc' ltac:(lia))].
      rewrite Hfirst in Hrep. by injection Hrep as ->.
    + exists new, w'. split; [done |]. rewrite Hc.
      do 8 (split; [done |]). split; [done |].
      intros loc' _ Hn Hfirst. destruct (Hnone eq_refl 0%nat loc'); [lia | done].
  - exists [], w. cbn. do 5 (split; [done |]). repeat split; try done; lia.
Qed.

Lemma timings_requests_app (l1 l2 : list Api.event) :
  Api.timings_requests (l1 ++ l2) = (Api.timings_requests l1 + Api.timings_requests l2)%nat.
Proof. unfold Api.timings_requests. by rewrite List.filter_app, length_app. Qed.



(** X19. [fetch_prayer_times] asks the timings service only for a
    location with both coordinates set and different from 0: when, after
    the location was detected or not, the configured latitude or
    longitude is missing or is 0 (the equator, the Greenwich meridian),
    it returns [None] without a single request to the timings service. *)
Theorem fetch_needs_coordinates (w : Api.World) :
  0 ≤ Api.retry_delay (Api.config w) →
  ∃ r w', Api.fetch_prayer_times w = (inr r, w') ∧
    (Api.falsy (Api.latitude (Api.config w')) || Api.falsy (Api.longitude (Api.config w'))
     = true →
     r = None ∧
     Api.timings_requests (Api.events w') = Api.timings_requests (Api.events w)).
Proof.
  intros Hd. rewrite fetch_prayer_times_run.
  destruct (detect_phase_spec w Hd)
    as (new & w1 & -> & Hn1 & Hd1 & Ht1 & He1 & Htr1 & _).
  destruct (Api.falsy (Api.latitude (Api.config w1)) || Api.falsy (Api.longitude (Api.config w1)))
    eqn:Hfalsy.
  - exists None, w1. split; [done |]. intros _. split; [done |].
    rewrite He1, timings_requests_app. lia.
  - destruct (fetch_loop_all (Api.retry_attempts (Api.config w1))
                (Api.retry_delay (Api.config w1)) w1 ltac:(lia))
      as (r & new2 & w' & Hrun & Hc & _).
    exists r, w'. split; [done |]. rewrite Hc. congruence.
Qed.

Lemma fetch_needs_coordinates_witness :
  ∃ r w',
    Api.fetch_prayer_times
      (Api.mkWorld (Api.mkConfig false (Some 0%Q) (Some (31 # 1)) None None None 3 2)
         (λ _, Api.Raised) (λ _, Api.Answered data0) [])
    = (inr r, w') ∧
    (Api.falsy (Api.latitude (Api.config w')) || Api.falsy (Api.longitude (Api.config w'))
     = true →
     r = None ∧ Api.timings_requests (Api.events w') = Api.timings_requests []).
Proof.
  apply (fetch_needs_coordinates
           (Api.mkWorld (Api.mkConfig false (Some 0%Q) (Some (31 # 1)) None None None 3 2)
              (λ _, Api.Raised) (λ _, Api.Answered data0) [])).
  vm_compute. discriminate.
Defined.



(** X21. With fixed coordinates, the first answer of the timings service
    among the first [retry_attempts] requests is what
    [fetch_prayer_times] returns: when the request number [j] (from 0) is
    the first answered, the data of that answer is returned after exactly
    [j + 1] requests and at most [j] sleeps, and the configuration is
    untouched. *)
Theorem fetch_first_answer (w : Api.World) (j : nat) (data : ApiData) :
  Api.auto_detect_location (Api.config w) = false →
  Api.falsy (Api.latitude (Api.config w)) || Api.falsy (Api.longitude (Api.config w)) = false →
  0 ≤ Api.retry_delay (Api.config w) →
  (j < Z.to_nat (Api.retry_attempts (Api.config w)))%nat →
  Api.timings_replies w j = Api.Answered data →
  (∀ i x, (i < j)%nat → Api.timings_replies w i ≠ Api.Answered x) →
  ∃ new w', Api.fetch_prayer_times w = (inr (Some data), w') ∧
    Api.config w' = Api.config w ∧
    Api.events w' = (new ++ Api.events w)%list ∧
    Api.timings_requests new = S j ∧ (Api.sleeps new ≤ j)%nat.
Proof.
  intros Hauto Hcoord Hd Hj Hrep Hbefore. rewrite fetch_prayer_times_run.
  destruct (detect_phase_spec w Hd) as (new1 & w1 & -> & H).
  destruct H as (_ & _ & _ & _ & _ & _ & _ & _ & Hsame & _).
  destruct (Hsame Hauto) as [-> ->]. rewrite Hcoord.
  destruct (fetch_loop_all (Api.retry_attempts (Api.config w))
              (Api.retry_delay (Api.config w)) w Hd)
    as (r & new & w' & Hrun & Hc & He & _ & _ & _ & _ & Hsome & Hnone).
  destruct r as [data'|].
  - destruct (Hsome data' eq_refl) as (j' & Hj' & Hrep' & Hbefore' & Hcount & Hsl).
    assert (j' = j) as ->.
    { destruct (Nat.lt_trichotomy j' j) as [Hlt|[->|Hgt]]; [| done |].
      - by destruct (Hbefore j' data' Hlt).
      - by destruct (Hbefore' j data Hgt). }
    rewrite Hrep in Hrep'. injection Hrep' as <-. by exists new, w'.
  - destruct (Hnone eq_refl) as [Hall _]. by destruct (Hall j data Hj).
Qed.

Lemma fetch_first_answer_witness :
  ∃ new w', Api.fetch_prayer_times world0 = (inr (Some data0), w') ∧
    Api.config w' = Api.config world0 ∧
    Api.events w' = (new ++ Api.events world0)%list ∧
    Api.timings_requests new = 3%nat ∧ (Api.sleeps new ≤ 2)%nat.
Proof.
  apply (fetch_first_answer world0 2 data0).
  - reflexivity.
  - reflexivity.
  - vm_compute. discriminate.
  - vm_compute. lia.
  - reflexivity.
  - intros i x Hi. destruct i as [|[|i]]; [discriminate | discriminate | lia].
Defined.

(** X22. With fixed coordinates, when none of the first [retry_attempts]
    requests to the timings service is answered, [fetch_prayer_times]
    returns [None] after exactly [retry_attempts] requests (none at all
    for a count of 0 or below). *)
Theorem fetch_gives_up (w : Api.World) :
  Api.auto_detect_location (Api.config w) = false →
  Api.falsy (Api.latitude (Api.config w)) || Api.falsy (Api.longitude (Api.config w)) = false →
  0 ≤ Api.retry_delay (Api.config w) →
  (∀ i x, (i < Z.to_nat (Api.retry_attempts (Api.config w)))%nat →
          Api.timings_replies w i ≠ Api.Answered x) →
  ∃ new w', Api.fetch_prayer_times w = (inr None, w') ∧
    Api.config w' = Api.config w ∧
    Api.events w' = (new ++ Api.events w)%list ∧
    Api.timings_requests new = Z.to_nat (Api.retry_attempts (Api.config w)) ∧
    (Api.sleeps new ≤ pred (Z.to_nat (Api.retry_attempts (Api.config w))))%nat.
Proof.
  intros Hauto Hcoord Hd Hall. rewrite fetch_prayer_times_run.
  destruct (detect_phase_spec w Hd) as (new1 & w1 & -> & H).
  destruct H as (_ & _ & _ & _ & _ & _ & _ & _ & Hsame & _).
  destruct (Hsame Hauto) as [-> ->]. rewrite Hcoord.
  destruct (fetch_loop_all (Api.retry_attempts (Api.config w))
              (Api.retry_delay (Api.config w)) w Hd)
    as (r & new & w' & Hrun & Hc & He & _ & _ & Hs & _ & Hsome & Hnone).
  destruct r as [data'|].
  - destruct (Hsome data' eq_refl) as (j' & Hj' & Hrep' & _).
    by destruct (Hall j' data' Hj').
  - destruct (Hnone eq_refl) as [_ Hcount]. by exists new, w'.
Qed.

Lemma fetch_gives_up_witness :
  ∃ new w',
    Api.fetch_prayer_times (Api.mkWorld config0 (λ _, Api.Raised) (λ _, Api.Raised) [])
    = (inr None, w') ∧
    Api.config w' = config0 ∧
    Api.events w' = (new ++ [])%list ∧
    Api.timings_requests new = Z.to_nat (Api.retry_attempts config0) ∧
    (Api.sleeps new ≤ pred (Z.to_nat (Api.retry_attempts config0)))%nat.
Proof.
  apply (fetch_gives_up (Api.mkWorld config0 (λ _, Api.Raised) (λ _, Api.Raised) [])).
  - reflexivity.
  - reflexivity.
  - vm_compute. discriminate.
  - intros i x _. discriminate.
Defined.

(** X23. With location detection on, an answer of the location service
    at the first request replaces the configured latitude, longitude and
    time zone (and city and country) by the detected ones, whatever was
    configured; when the detected latitude or longitude is missing or 0,
    [None] is returned and the timings service is not asked. *)
Theorem fetch_detected_location (w : Api.World) (location : Api.Location) :
  Api.auto_detect_location (Api.config w) = true →
  0 ≤ Api.retry_delay (Api.config w) →
  0 < Api.retry_attempts (Api.config w) →
  Api.location_replies w 0%nat = Api.Answered location →
  ∃ r w', Api.fetch_prayer_times w = (inr r, w') ∧
    Api.config w' = Api.set_coordinates location
                      (Api.set_city_country location (Api.config w)) ∧
    (Api.falsy (Api.loc_lat location) || Api.falsy (Api.loc_lon location) = true →
     r = None ∧
     Api.timings_requests (Api.events w') = Api.timings_requests (Api.events w)).
Proof.
  intros Hauto Hd Hn Hfirst. rewrite fetch_prayer_times_run.
  destruct (detect_phase_spec w Hd)
    as (new1 & w1 & -> & Hn1 & Hd1 & Ht1 & He1 & Htr1 & _ & _ & _ & _ & Hfound).
  destruct (Hfound location Hauto Hn Hfirst) as [Hc1 _].
  rewrite Hc1. cbn [Api.latitude Api.longitude Api.set_coordinates].
  destruct (Api.falsy (Api.loc_lat location) || Api.falsy (Api.loc_lon location)) eqn:Hfalsy.
  - exists None, w1. split; [done |]. split; [done |]. intros _. split; [done |].
    rewrite He1, timings_requests_app. lia.
  - rewrite <- Hc1.
    destruct (fetch_loop_all (Api.retry_attempts (Api.config w1))
                (Api.retry_delay (Api.config w1)) w1 ltac:(lia))
      as (r & new2 & w' & Hrun & Hc & _).
    exists r, w'. split; [done |]. split; [congruence | done].
Qed.

Lemma fetch_detected_location_witness :
  ∃ r w',
    Api.fetch_prayer_times
      (Api.mkWorld (Api.mkConfig true (Some (30 # 1)) (Some (31 # 1)) None None None 3 2)
         (λ _, Api.Answered location0) (λ _, Api.Answered data0) [])
    = (inr r, w') ∧
    Api.config w' = Api.set_coordinates location0
                      (Api.set_city_country location0
                         (Api.mkConfig true (Some (30 # 1)) (Some (31 # 1)) None None None 3 2)) ∧
    (Api.falsy (Api.loc_lat location0) || Api.falsy (Api.loc_lon location0) = true →
     r = None ∧ Api.timings_requests (Api.events w') = Api.timings_requests []).
Proof.
  apply (fetch_detected_location
           (Api.mkWorld (Api.mkConfig true (Some (30 # 1)) (Some (31 # 1)) None None None 3 2)
              (λ _, Api.Answered location0) (λ _, Api.Answered data0) [])
           location0).
  - reflexivity.
  - vm_compute. discriminate.
  - reflexivity.
  - reflexivity.
Defined.

(** X24. A negative [retry_delay] turns a failed request that is not the
    last attempt into a [ValueError] of [time.sleep], raised inside the
    [except] block: with fixed coordinates, at least two attempts and a
    first request that raises, [fetch_prayer_times] ends in [ValueError]
    after that one request. *)
Theorem fetch_negative_delay (w : Api.World) :
  Api.auto_detect_location (Api.config w) = false →
  Api.falsy (Api.latitude (Api.config w)) || Api.falsy (Api.longitude (Api.config w)) = false →
  Api.retry_delay (Api.config w) < 0 →
  2 ≤ Api.retry_attempts (Api.config w) →
  Api.timings_replies w 0%nat = Api.Raised →
  ∃ w', Api.fetch_prayer_times w = (inl ValueError, w') ∧
        Api.events w' = Api.TimingsRequest :: Api.events w.
Proof.
  intros Hauto Hcoord Hd Hn Hfirst.
  unfold Api.fetch_prayer_times, mbind, Api.IO_bind, Api.get_config.
  rewrite Hauto. cbn [mret Api.IO_ret]. rewrite Hcoord.
  rewrite seqZ_cons by lia. cbn [Api.fetch_loop].
  unfold mbind, Api.IO_bind, Api.request_timings, Api.sleep. rewrite Hfirst.
  cbn [Api.config].
  destruct (Z.ltb_spec 0 (Api.retry_attempts (Api.config w) - 1)); [| lia].
  destruct (Z.ltb_spec (Api.retry_delay (Api.config w)) 0); [| lia].
  by eexists.
Qed.

Lemma fetch_negative_delay_witness :
  ∃ w',
    Api.fetch_prayer_times
      (Api.mkWorld (Api.mkConfig false (Some (30 # 1)) (Some (31 # 1)) None None None 3 (-1))
         (λ _, Api.Raised) (λ _, Api.Raised) [])
    = (inl ValueError, w') ∧
    Api.events w' = [Api.TimingsRequest].
Proof.
  apply (fetch_negative_delay
           (Api.mkWorld (Api.mkConfig false (Some (30 # 1)) (Some (31 # 1)) None None None 3 (-1))
              (λ _, Api.Raised) (λ _, Api.Raised) [])).
  - reflexivity.
  - reflexivity.
  - reflexivity.
  - vm_compute. discriminate.
  - reflexivity.
Defined.
